(** * moneytracker: the derivation and scheduling engine of [src/App.jsx]

    A shallow embedding of the pure parts of the React prototype
    (aggregations over the transaction log, the installment schedule
    generator, the installment toggle, the forms and the actions that add
    and delete transactions and loans) together with the properties the
    specification states about them and further properties the code
    shows.

    Modelling conventions

    - A JavaScript [Number] that holds an amount is an exact rational
      ([Q]); [+], [-], [*], [/] are the rational operations and equality of
      amounts is [Qeq].  Binary64 representation error is outside the
      model: the development speaks about decimal amounts, as the
      specification does.
    - [Date] follows the ECMAScript algorithms (Day, DayFromYear,
      YearFromTime, MonthFromTime, DateFromTime, MakeDay, MakeDate,
      TimeClip, LocalTime, UTC) over integer milliseconds.  A date-only
      text is parsed as midnight UTC, [getMonth], [getFullYear] and
      [setMonth] work in local time and [toISOString] in UTC; the local
      time zone enters through [LocalTZA], a parameter.
    - [t.type] is one of the two values the form offers; [t.bank] and the
      dates are texts.
    - [uid()] and [todayISO()] read the environment; the embedding takes
      the generated identifiers and the current date as parameters.
    - objects and [Map]s whose iteration order is observable are
      association lists in insertion order. *)

From Stdlib Require Import ZArith QArith Qround List String Ascii Bool Sorted
  Permutation Lia Lqa.
Import ListNotations.

Local Open Scope Z_scope.

(* ================================================================== *)
(** ** ECMAScript [Date] arithmetic *)

Module JSDate.

Definition msPerDay : Z := 86400000.

Definition Day (t : Z) : Z := t / msPerDay.
Definition TimeWithinDay (t : Z) : Z := t mod msPerDay.

Definition isLeapYear (y : Z) : bool :=
  if negb (y mod 4 =? 0) then false
  else if negb (y mod 100 =? 0) then true
  else if negb (y mod 400 =? 0) then false
  else true.

Definition DaysInYear (y : Z) : Z := if isLeapYear y then 366 else 365.

Definition DayFromYear (y : Z) : Z :=
  365 * (y - 1970) + (y - 1969) / 4 - (y - 1901) / 100 + (y - 1601) / 400.

(** [YearFromDay d] is the largest [y] with [DayFromYear y <= d]
    (lemma [YearFromDay_spec]); it is found next to the estimate that a
    mean year of 365.2425 days gives. *)
Definition YearFromDay (d : Z) : Z :=
  let y0 := 1970 + (400 * d) / 146097 in
  if DayFromYear (y0 + 1) <=? d then y0 + 1
  else if DayFromYear y0 <=? d then y0
  else y0 - 1.

Definition YearFromTime (t : Z) : Z := YearFromDay (Day t).
Definition DayWithinYear (t : Z) : Z := Day t - DayFromYear (YearFromTime t).
Definition InLeapYear (t : Z) : Z := if isLeapYear (YearFromTime t) then 1 else 0.

(** Number of days of the year before month [m] (0 = January). *)
Definition monthStart (leap m : Z) : Z :=
  match m with
  | 0 => 0
  | 1 => 31
  | 2 => 59 + leap
  | 3 => 90 + leap
  | 4 => 120 + leap
  | 5 => 151 + leap
  | 6 => 181 + leap
  | 7 => 212 + leap
  | 8 => 243 + leap
  | 9 => 273 + leap
  | 10 => 304 + leap
  | _ => 334 + leap
  end.

Definition monthOfYearDay (leap d : Z) : Z :=
  if d <? 31 then 0
  else if d <? 59 + leap then 1
  else if d <? 90 + leap then 2
  else if d <? 120 + leap then 3
  else if d <? 151 + leap then 4
  else if d <? 181 + leap then 5
  else if d <? 212 + leap then 6
  else if d <? 243 + leap then 7
  else if d <? 273 + leap then 8
  else if d <? 304 + leap then 9
  else if d <? 334 + leap then 10
  else 11.

Definition MonthFromTime (t : Z) : Z :=
  monthOfYearDay (InLeapYear t) (DayWithinYear t).

Definition DateFromTime (t : Z) : Z :=
  DayWithinYear t - monthStart (InLeapYear t) (MonthFromTime t) + 1.

(** MakeDay(year, month, date): [month] may lie outside 0..11 and [date]
    outside the month; both carry over. *)
Definition MakeDay (year month date : Z) : Z :=
  let ym := year + month / 12 in
  let mn := month mod 12 in
  DayFromYear ym + monthStart (if isLeapYear ym then 1 else 0) mn + date - 1.

Definition MakeDate (day time : Z) : Z := day * msPerDay + time.

(** Leap day count of a year and the length of month [m] (0 = January),
    as [monthStart] implies them. *)
Definition leapDays (y : Z) : Z := if isLeapYear y then 1 else 0.

Definition daysInMonth (leap m : Z) : Z :=
  match m with
  | 1 => 28 + leap
  | 3 | 5 | 8 | 10 => 30
  | _ => 31
  end.

Definition maxTime : Z := 8640000000000000.

(** A time value is [Some t], or [None] for NaN (an Invalid Date). *)
Definition TimeClip (t : Z) : option Z :=
  if Z.abs t <=? maxTime then Some t else None.

Section LocalZone.

(** LocalTZA(t, isUTC): the offset of local time, in milliseconds. *)
Variable LocalTZA : Z -> bool -> Z.

Definition LocalTime (t : Z) : Z := t + LocalTZA t true.
Definition UTC (t : Z) : Z := t - LocalTZA t false.

(** Date.prototype.getFullYear / getMonth / getDate: [None] is NaN. *)
Definition getFullYear (d : option Z) : option Z :=
  option_map (fun t => YearFromTime (LocalTime t)) d.
Definition getMonth (d : option Z) : option Z :=
  option_map (fun t => MonthFromTime (LocalTime t)) d.
Definition getDate (d : option Z) : option Z :=
  option_map (fun t => DateFromTime (LocalTime t)) d.

(** Date.prototype.setMonth(month), [month] being NaN when [None]. *)
Definition setMonth (d : option Z) (month : option Z) : option Z :=
  match d, month with
  | Some tv, Some m =>
      let t := LocalTime tv in
      let newDate :=
        MakeDate (MakeDay (YearFromTime t) m (DateFromTime t)) (TimeWithinDay t) in
      TimeClip (UTC newDate)
  | _, _ => None
  end.

End LocalZone.

(** A zone whose offset from UTC never changes: [off] milliseconds. *)
Definition fixedZone (off : Z) : Z -> bool -> Z := fun _ _ => off.

End JSDate.

(* ================================================================== *)
(** ** Strings: the pieces of [String], [padStart], [slice], [Date.parse]
       and [toISOString] that the program uses *)

Module JSString.

Local Open Scope string_scope.
Local Open Scope Z_scope.

Definition digitChar (n : Z) : ascii := ascii_of_nat (48 + Z.to_nat n).

Definition digitOf (c : ascii) : option Z :=
  let n := Z.of_nat (nat_of_ascii c) in
  if (48 <=? n) && (n <=? 57) then Some (n - 48) else None.

(** Decimal digits of a non-negative integer, most significant first. *)
Fixpoint digitsFrom (fuel : nat) (n : Z) (acc : string) : string :=
  match fuel with
  | O => acc
  | S fuel' =>
      let acc' := String (digitChar (n mod 10)) acc in
      if n / 10 =? 0 then acc' else digitsFrom fuel' (n / 10) acc'
  end.

(** [String(n)] for an integer [n]. *)
Definition ofInteger (n : Z) : string :=
  let ds := digitsFrom (S (Z.to_nat (Z.log2 (Z.abs n)))) (Z.abs n) "" in
  if n <? 0 then String "-" ds else ds.

Fixpoint repeatChar (c : ascii) (n : nat) : string :=
  match n with
  | O => ""
  | S n' => String c (repeatChar c n')
  end.

(** [s.padStart(len, c)] for a one-character filler. *)
Definition padStart (len : nat) (c : ascii) (s : string) : string :=
  repeatChar c (len - String.length s) ++ s.

(** [s.slice(0, n)]. *)
Definition slice0 (n : nat) (s : string) : string := String.substring 0 n s.

(** Fixed-width decimal fields, as [toISOString] writes them. *)
Definition pad2 (n : Z) : string :=
  String (digitChar (n / 10 mod 10)) (String (digitChar (n mod 10)) "").
Definition pad3 (n : Z) : string :=
  String (digitChar (n / 100 mod 10)) (pad2 n).
Definition pad4 (n : Z) : string :=
  String (digitChar (n / 1000 mod 10)) (pad3 n).
Definition pad6 (n : Z) : string :=
  String (digitChar (n / 100000 mod 10))
    (String (digitChar (n / 10000 mod 10)) (pad4 n)).

(** The calendar date [y-m-d] ([m] from 1) written as YYYY-MM-DD. *)
Definition isoDate (y m d : Z) : string :=
  pad4 y ++ "-" ++ pad2 m ++ "-" ++ pad2 d.

(** The year-month [y-m] ([m] from 1) written as YYYY-MM. *)
Definition isoMonth (y m : Z) : string := pad4 y ++ "-" ++ pad2 m.

Definition num2 (a b : ascii) : option Z :=
  match digitOf a, digitOf b with
  | Some x, Some y => Some (10 * x + y)
  | _, _ => None
  end.

Definition num4 (a b c d : ascii) : option Z :=
  match num2 a b, num2 c d with
  | Some x, Some y => Some (100 * x + y)
  | _, _ => None
  end.

(** The fields of a date-only text YYYY-MM-DD: year, month (1..12), day
    (1..31). *)
Definition isoFields (s : string) : option (Z * Z * Z) :=
  match s with
  | String y1 (String y2 (String y3 (String y4 (String h1
      (String m1 (String m2 (String h2 (String d1 (String d2 "")))))))))
    =>
      if Ascii.eqb h1 "-" && Ascii.eqb h2 "-" then
        match num4 y1 y2 y3 y4, num2 m1 m2, num2 d1 d2 with
        | Some y, Some m, Some d =>
            if (1 <=? m) && (m <=? 12) && (1 <=? d) && (d <=? 31)
            then Some (y, m, d) else None
        | _, _, _ => None
        end
      else None
  | _ => None
  end.

(** The fields of a text YYYY-MM-DD that names a day of the calendar. *)
Definition calendarDate (s : string) : option (Z * Z * Z) :=
  match isoFields s with
  | Some (y, m, d) =>
      if d <=? JSDate.daysInMonth (JSDate.leapDays y) (m - 1)
      then Some (y, m, d) else None
  | None => None
  end.

(** [new Date(s)] for a text [s].  The date-only form YYYY-MM-DD, which
    is what an [<input type="date">] delivers and what the program
    stores, denotes midnight UTC of that day.  Every other text is taken
    to be unparseable (an Invalid Date); a day number beyond the end of
    its month carries over into the next month, as MakeDay does. *)
Definition parseDate (s : string) : option Z :=
  match isoFields s with
  | Some (y, m, d) =>
      JSDate.TimeClip (JSDate.MakeDate (JSDate.MakeDay y (m - 1) d) 0)
  | None => None
  end.

(** The year as [toISOString] writes it. *)
Definition isoYear (y : Z) : string :=
  if (0 <=? y) && (y <=? 9999) then pad4 y
  else String (if y <? 0 then "-"%char else "+"%char) (pad6 (Z.abs y)).

(** [Date.prototype.toISOString] of a valid time value. *)
Definition toISOString (t : Z) : string :=
  let w := JSDate.TimeWithinDay t in
  isoYear (JSDate.YearFromTime t) ++ "-" ++
  pad2 (JSDate.MonthFromTime t + 1) ++ "-" ++
  pad2 (JSDate.DateFromTime t) ++ "T" ++
  pad2 (w / 3600000) ++ ":" ++
  pad2 (w / 60000 mod 60) ++ ":" ++
  pad2 (w / 1000 mod 60) ++ "." ++
  pad3 (w mod 1000) ++ "Z".

End JSString.

Import JSDate JSString.

(* ================================================================== *)
(** ** Data model (the shapes documented at [useLocalStorageState]) *)

(** [Math.round]: the nearest integer, a tie going up. *)
Definition Math_round (x : Q) : Q := inject_Z (Qfloor (x + (1 # 2))).

(** The two values of [type]: 'income' and 'expense'. *)
Inductive txType : Type := Income | Expense.

(** {id,date,type:'income'|'expense',description,amount,bank,category} *)
Record transaction : Type := mkTransaction {
  tx_id : string;
  tx_date : string;
  tx_type : txType;
  tx_description : string;
  tx_amount : Q;
  tx_bank : string;
  tx_category : string
}.

(** {id,dueDate,amount,paid,paidDate}; [paidDate] is a text or null. *)
Record installment : Type := mkInstallment {
  inst_id : string;
  inst_dueDate : string;
  inst_amount : Q;
  inst_paid : bool;
  inst_paidDate : option string
}.

(** {id, person, amount, startDate, dueDate, installments, schedule, notes} *)
Record loan : Type := mkLoan {
  loan_id : string;
  loan_person : string;
  loan_amount : Q;
  loan_startDate : string;
  loan_dueDate : option string;
  loan_installments : Q;
  loan_notes : string;
  loan_schedule : list installment
}.

Record database : Type := mkDb {
  transactions : list transaction;
  loansTaken : list loan;
  loansGiven : list loan
}.

(** The two loan collections a [kind] key can name. *)
Inductive loanKind : Type := kLoansTaken | kLoansGiven.

Definition getLoans (kind : loanKind) (db : database) : list loan :=
  match kind with
  | kLoansTaken => loansTaken db
  | kLoansGiven => loansGiven db
  end.

(** [{...prev, [kind]: ls}] *)
Definition setLoans (kind : loanKind) (ls : list loan) (db : database) : database :=
  match kind with
  | kLoansTaken => mkDb (transactions db) ls (loansGiven db)
  | kLoansGiven => mkDb (transactions db) (loansTaken db) ls
  end.

Definition BANKS : list string :=
  ["UBL"; "JS Bank"; "Meezan Bank"; "ABL"; "NayaPay"; "Easypaisa"; "JazzCash"]%string.

Definition CATEGORIES : list string :=
  ["Salary"; "Business"; "Freelance"; "Investment"; "Gift"; "Food"; "Transport";
   "Bills"; "Education"; "Health"; "Shopping"; "Rent"; "Misc"]%string.

(** The signed contribution of a transaction:
    [(t.type === 'income' ? 1 : -1) * Number(t.amount)]. *)
Definition signedAmount (t : transaction) : Q :=
  ((match tx_type t with Income => 1 | Expense => -1 end) * tx_amount t)%Q.

(* ================================================================== *)
(** ** Plain objects used as maps *)

(** The values the [sums] object can come to hold: a number, NaN, or a
    text (whose characters are not tracked). *)
Inductive jsval : Type :=
| VNum (q : Q)
| VNaN
| VString.

(** Own properties in creation order (none of the keys met here is an
    array index, so this is the order of [Object.entries]). *)
Definition jsobject : Type := list (string * jsval).

(** The names every plain object inherits from [Object.prototype]. *)
Definition objectPrototypeKeys : list string :=
  ["constructor"; "__defineGetter__"; "__defineSetter__"; "hasOwnProperty";
   "__lookupGetter__"; "__lookupSetter__"; "isPrototypeOf";
   "propertyIsEnumerable"; "toString"; "valueOf"; "__proto__";
   "toLocaleString"]%string.

Fixpoint getOwn (o : jsobject) (k : string) : option jsval :=
  match o with
  | [] => None
  | (k', v) :: o' => if String.eqb k' k then Some v else getOwn o' k
  end.

Fixpoint setOwn (o : jsobject) (k : string) (v : jsval) : jsobject :=
  match o with
  | [] => [(k, v)]
  | (k', v') :: o' =>
      if String.eqb k' k then (k', v) :: o' else (k', v') :: setOwn o' k v
  end.

Definition inherited (k : string) : bool :=
  existsb (String.eqb k) objectPrototypeKeys.

(** [k in o]: an own or an inherited property. *)
Definition hasProperty (o : jsobject) (k : string) : bool :=
  match getOwn o k with
  | Some _ => true
  | None => inherited k
  end.

(** [o[k] += x] for a number [x].  On an own number it adds.  A text
    stays a text, NaN stays NaN.  A name that is only inherited is read
    from the prototype (a function or an object, so the sum is a text)
    and written as a new own property, except for [__proto__], whose
    setter ignores a text.  A name that is not there reads undefined,
    and the sum is NaN. *)
Definition addAssign (o : jsobject) (k : string) (x : Q) : jsobject :=
  match getOwn o k with
  | Some (VNum q) => setOwn o k (VNum (q + x))
  | Some VNaN => o
  | Some VString => o
  | None =>
      if inherited k then
        if String.eqb k "__proto__" then o else setOwn o k VString
      else setOwn o k VNaN
  end.

(** [Object.fromEntries]. *)
Definition fromEntries (es : list (string * jsval)) : jsobject :=
  fold_left (fun o e => setOwn o (fst e) (snd e)) es [].

(** [Map] from text keys to [{income, expense}] objects, in insertion
    order. *)
Record bucket : Type := mkBucket { b_income : Q; b_expense : Q }.

Definition jsmap : Type := list (string * bucket).

Fixpoint mapHas (m : jsmap) (k : string) : bool :=
  match m with
  | [] => false
  | (k', _) :: m' => if String.eqb k' k then true else mapHas m' k
  end.

(** [map.set(k, b)] for a key that may or may not exist. *)
Fixpoint mapSet (m : jsmap) (k : string) (b : bucket) : jsmap :=
  match m with
  | [] => [(k, b)]
  | (k', b') :: m' =>
      if String.eqb k' k then (k', b) :: m' else (k', b') :: mapSet m' k b
  end.

(** [map.get(k)[type] += x]: the object stored under [k] is updated in
    place. *)
Definition bucketAdd (ty : txType) (x : Q) (b : bucket) : bucket :=
  match ty with
  | Income => mkBucket (b_income b + x) (b_expense b)
  | Expense => mkBucket (b_income b) (b_expense b + x)
  end.

Fixpoint mapAddTo (m : jsmap) (k : string) (ty : txType) (x : Q) : jsmap :=
  match m with
  | [] => []
  | (k', b) :: m' =>
      if String.eqb k' k then (k', bucketAdd ty x b) :: m'
      else (k', b) :: mapAddTo m' k ty x
  end.

(** [Array.prototype.sort] with a consistent comparator: a stable sort.
    [cmp a b] is the sign of the comparator's result. *)
Section Sort.
Context {A : Type}.
Variable cmp : A -> A -> comparison.

Fixpoint insertSorted (x : A) (l : list A) : list A :=
  match l with
  | [] => [x]
  | y :: l' =>
      match cmp x y with
      | Gt => y :: insertSorted x l'
      | _ => x :: y :: l'
      end
  end.

Definition sortBy (l : list A) : list A := fold_right insertSorted [] l.
End Sort.

(** The comparator of [sort()] without an argument on [key, object]
    pairs: both are converted to text, the pair becoming
    [key + "," + "[object Object]"], and compared by code units. *)
Definition entryText (e : string * bucket) : string :=
  (fst e ++ ",[object Object]")%string.

Definition defaultCompare (a b : string * bucket) : comparison :=
  String.compare (entryText a) (entryText b).

(* ================================================================== *)
(** ** Derived views of [App] *)

Definition bankStep (sums : jsobject) (t : transaction) : jsobject :=
  if negb (hasProperty sums (tx_bank t)) then sums
  else addAssign sums (tx_bank t) (signedAmount t).

Definition bankSummaries (txs : list transaction) : jsobject :=
  fold_left bankStep txs (fromEntries (map (fun b => (b, VNum 0)) BANKS)).

(** The loop shared, up to the key, by [dailyTotals], [monthlySavings]
    and [yearlySavings]. *)
Definition bucketStep (key : transaction -> string) (m : jsmap) (t : transaction) : jsmap :=
  let k := key t in
  let m1 := if negb (mapHas m k) then mapSet m k (mkBucket 0 0) else m in
  mapAddTo m1 k (tx_type t) (tx_amount t).

Definition buckets (key : transaction -> string) (txs : list transaction) : jsmap :=
  fold_left (bucketStep key) txs [].

Record dailyRow : Type := mkDaily {
  d_date : string; d_income : Q; d_expense : Q; d_net : Q }.
Record monthlyRow : Type := mkMonthly {
  m_month : string; m_income : Q; m_expense : Q; m_saving : Q }.
Record yearlyRow : Type := mkYearly {
  y_year : string; y_income : Q; y_expense : Q; y_saving : Q }.

Section Views.

Variable LocalTZA : Z -> bool -> Z.

(** The collation of [a.localeCompare(b)], which the host supplies. *)
Variable localeCompare : string -> string -> comparison.

Definition monthKey (d : string) : string :=
  let dt := parseDate d in
  match getFullYear LocalTZA dt, getMonth LocalTZA dt with
  | Some y, Some m =>
      (ofInteger y ++ "-" ++ padStart 2 "0" (ofInteger (m + 1)))%string
  | _, _ => "NaN-NaN"%string
  end.

Definition yearKey (d : string) : string :=
  match getFullYear LocalTZA (parseDate d) with
  | Some y => ofInteger y
  | None => "NaN"%string
  end.

Definition dailyTotals (txs : list transaction) : list dailyRow :=
  map (fun e => let v := snd e in
                mkDaily (fst e) (b_income v) (b_expense v)
                        (b_income v - b_expense v)%Q)
      (sortBy (fun a b => localeCompare (fst a) (fst b))
              (buckets tx_date txs)).

Definition monthlySavings (txs : list transaction) : list monthlyRow :=
  map (fun e => let v := snd e in
                mkMonthly (fst e) (b_income v) (b_expense v)
                          (b_income v - b_expense v)%Q)
      (sortBy defaultCompare (buckets (fun t => monthKey (tx_date t)) txs)).

Definition yearlySavings (txs : list transaction) : list yearlyRow :=
  map (fun e => let v := snd e in
                mkYearly (fst e) (b_income v) (b_expense v)
                         (b_income v - b_expense v)%Q)
      (sortBy defaultCompare (buckets (fun t => yearKey (tx_date t)) txs)).

End Views.



(** [addTransaction]: the new record, given the identifier [newId] that
    [uid()] returns, goes to the front. *)
Definition addTransaction (newId : string) (tx : transaction) (prev : database)
    : database :=
  mkDb (mkTransaction newId (tx_date tx) (tx_type tx) (tx_description tx)
          (tx_amount tx) (tx_bank tx) (tx_category tx) :: transactions prev)
       (loansTaken prev) (loansGiven prev).

(* ================================================================== *)
(** ** [BanksView]: the transactions of one bank and their running sums *)

Definition bankTx (txs : list transaction) (activeBank : string) : list transaction :=
  rev (filter (fun t => String.eqb (tx_bank t) activeBank) txs).

(** [{...t, running: bal}] *)
Record runningRow : Type := mkRunning { r_tx : transaction; r_running : Q }.

(** The [map] callback of [running], with [bal] threaded through. *)
Fixpoint runningRows (bal : Q) (l : list transaction) : list runningRow :=
  match l with
  | [] => []
  | t :: l' =>
      let bal' := (bal + signedAmount t)%Q in
      mkRunning t bal' :: runningRows bal' l'
  end.

Definition running (bankTx : list transaction) : list runningRow :=
  let rows := runningRows 0 (rev bankTx) in
  rev rows.

(** [Reports]: [Object.entries(bankSummaries)] turned into rows. *)
Definition bankArray (sums : jsobject) : list (string * jsval) :=
  map (fun e => (fst e, snd e)) sums.

(* ================================================================== *)
(** ** Loans: [toggleInstallment], [addLoan], [generateSchedule],
       [createLoan] *)

(** The exceptions the modelled code can raise. *)
Inductive exn : Type :=
| TypeError    (* a property of [undefined] is read *)
| RangeError.  (* [toISOString] of an Invalid Date *)

(** A [Number] that may be NaN. *)
Inductive number : Type :=
| NaN
| Num (q : Q).

Definition toggleInst (today : string) (instId : string) (s : installment) : installment :=
  if negb (String.eqb (inst_id s) instId) then s
  else mkInstallment (inst_id s) (inst_dueDate s) (inst_amount s)
         (negb (inst_paid s))
         (if negb (inst_paid s) then Some today else None).

Definition toggleLoan (today : string) (loanId instId : string) (l : loan) : loan :=
  if negb (String.eqb (loan_id l) loanId) then l
  else mkLoan (loan_id l) (loan_person l) (loan_amount l) (loan_startDate l)
         (loan_dueDate l) (loan_installments l) (loan_notes l)
         (map (toggleInst today instId) (loan_schedule l)).

(** [toggleInstallment(kind, loanId, instId)] as the state update it
    passes to [setDb]; [today] is what [todayISO()] returns. *)
Definition toggleInstallment (today : string) (kind : loanKind)
    (loanId instId : string) (prev : database) : database :=
  setLoans kind (map (toggleLoan today loanId instId) (getLoans kind prev)) prev.

(** What [createLoan] hands to [addLoan]: a loan without its [id]. *)
Definition addLoan (newId : string) (kind : loanKind) (payload : loan)
    (prev : database) : database :=
  setLoans kind
    (mkLoan newId (loan_person payload) (loan_amount payload)
       (loan_startDate payload) (loan_dueDate payload)
       (loan_installments payload) (loan_notes payload)
       (loan_schedule payload) :: getLoans kind prev)
    prev.

Section Schedule.

Variable LocalTZA : Z -> bool -> Z.

(** [uid i] is the identifier the [i]-th call of [uid()] returns. *)
Variable uid : nat -> string.

(** The body of the loop up to the text of the due date:
    [d = new Date(s); d.setMonth(d.getMonth()+i+1);
     d.toISOString().slice(0,10)]. *)
Definition dueDateAt (s : option Z) (i : nat) : exn + string :=
  let d := s in
  let d' := setMonth LocalTZA d
              (option_map (fun m => m + Z.of_nat i + 1) (getMonth LocalTZA d)) in
  match d' with
  | Some t => inr (slice0 10 (toISOString t))
  | None => inl RangeError
  end.

(** [k] more rounds of the loop, the next index being [i]. *)
Fixpoint pushInstallments (s : option Z) (per : Q) (k i : nat)
    (lst : list installment) : exn + list installment :=
  match k with
  | O => inr lst
  | S k' =>
      match dueDateAt s i with
      | inl e => inl e
      | inr due =>
          pushInstallments s per k' (S i)
            (lst ++ [mkInstallment (uid i) due per false None])
      end
  end.

(** [list.reduce((s,x)=>s+x.amount,0)] *)
Definition sumAmounts (lst : list installment) : Q :=
  fold_left (fun s x => (s + inst_amount x)%Q) lst 0%Q.

(** The number of rounds of [for(let i=0;i<count;i++)]. *)
Definition rounds (count : Q) : nat := Z.to_nat (Qceiling count).

(** [generateSchedule(amount, start, count)].  With a count of 0 the
    division gives Infinity or NaN in JavaScript and 0 here; no round
    runs then and [per] goes unused. *)
Definition generateSchedule (amount : Q) (start : string) (count : Q)
    : exn + list installment :=
  let amt := amount in
  let per := (Math_round ((amt / count) * 100) / 100)%Q in
  let s := parseDate start in
  match pushInstallments s per (rounds count) 0 [] with
  | inl e => inl e
  | inr lst =>
      let sum := sumAmounts lst in
      match rev lst with
      | [] => inl TypeError
      | x :: before =>
          inr (rev before ++
               [mkInstallment (inst_id x) (inst_dueDate x)
                  (Math_round ((inst_amount x + (amt - sum)) * 100) / 100)%Q
                  (inst_paid x) (inst_paidDate x)])
      end
  end.

(** The state of the loan form.  A number field holds text; it is
    represented by what the code reads from it: [f_amount] is [None]
    for the empty text and otherwise the number the text converts to,
    [f_installments] is [Number(form.installments)]. *)
Record loanForm : Type := mkLoanForm {
  f_person : string;
  f_amount : option Q;
  f_startDate : string;
  f_dueDate : string;
  f_installments : number;
  f_notes : string
}.

(** The outcomes of submitting the form. *)
Inductive submitted : Type :=
| Alerted                    (* 'Enter person & amount', nothing stored *)
| Raised (e : exn)           (* the handler ends by an exception *)
| Stored (db : database).

(** [x > 0] for a number that may be NaN. *)
Definition isPositive (n : number) : bool :=
  match n with
  | NaN => false
  | Num q => negb (Qle_bool q 0)
  end.

(** [n || 0] *)
Definition orZero (n : number) : Q :=
  match n with
  | NaN => 0%Q
  | Num q => if Qeq_bool q 0 then 0%Q else q
  end.

Definition createLoan (kind : loanKind) (form : loanForm) (prev : database)
    : submitted :=
  if String.eqb (f_person form) "" then Alerted
  else
    match f_amount form with
    | None => Alerted
    | Some amount =>
        let schedule :=
          if isPositive (f_installments form) then
            match f_installments form with
            | Num n => generateSchedule amount (f_startDate form) n
            | NaN => inr []
            end
          else inr [] in
        match schedule with
        | inl e => Raised e
        | inr sch =>
            let payload :=
              mkLoan ""%string (f_person form) amount (f_startDate form)
                (if String.eqb (f_dueDate form) "" then None
                 else Some (f_dueDate form))
                (orZero (f_installments form)) (f_notes form) sch in
            Stored (addLoan (uid (List.length sch)) kind payload prev)
        end
    end.

End Schedule.

(* ================================================================== *)
(** ** Vocabulary of the statements *)

(** The installment that round [i] of the loop of [generateSchedule]
    pushes, [due i] being the text of its due date. *)
Definition pushed (uid : nat -> string) (due : nat -> string) (per : Q) (i : nat)
    : installment :=
  mkInstallment (uid i) (due i) per false None.

(** The amount every round pushes, and the amount the last installment is
    given after [k] rounds. *)
Definition perAmount (amt count : Q) : Q :=
  (Math_round ((amt / count) * 100) / 100)%Q.

Definition lastAmount (uid : nat -> string) (due : nat -> string)
    (amt count : Q) (k : nat) : Q :=
  (Math_round ((perAmount amt count
                + (amt - sumAmounts (map (pushed uid due (perAmount amt count)) (seq 0 k))))
               * 100) / 100)%Q.


(** The sum of [f] over a list of transactions. *)
Fixpoint sumOver (f : transaction -> Q) (txs : list transaction) : Q :=
  match txs with
  | [] => 0%Q
  | t :: rest => (f t + sumOver f rest)%Q
  end.




(** The signed amounts of the transactions of bank [b], added up. *)
Definition bankTotal (b : string) (txs : list transaction) : Q :=
  sumOver (fun t => if String.eqb (tx_bank t) b then signedAmount t else 0%Q) txs.



(* ================================================================== *)
(** ** Sample data *)

Definition sampleTx (id date : string) (ty : txType) (amount : Q) (bank : string)
    : transaction :=
  mkTransaction id date ty ""%string amount bank "Misc"%string.

(** The three transactions of the monthly example of the specification. *)
Definition monthlyExample : list transaction :=
  [ sampleTx "a" "2024-01-01" Income 100 "UBL";
    sampleTx "b" "2024-01-01" Expense 40 "UBL";
    sampleTx "c" "2024-02-01" Income 50 "ABL" ]%string.

(** Two deposits into one bank; the later one was added last and so
    stands first. *)
Definition firstDeposit : transaction := sampleTx "d1" "2024-01-01" Income 100 "UBL".
Definition secondDeposit : transaction := sampleTx "d2" "2024-01-02" Income 50 "UBL".
Definition twoDeposits : list transaction := [secondDeposit; firstDeposit].

(** A transaction of a bank that is not in [BANKS]. *)
Definition cashExpense : transaction := sampleTx "e" "2024-03-05" Expense 12.5 "Cash".

Definition sampleUid (i : nat) : string := ofInteger (Z.of_nat i).

Definition emptyDb : database := mkDb [] [] [].

(** The loan form filled in for 1000 from 2024-01-15, with the given
    installments field. *)
Definition sampleForm (installments : number) : loanForm :=
  mkLoanForm "Ali" (Some 1000%Q) "2024-01-15" "" installments "".

(** Five hours behind UTC, in milliseconds. *)
Definition fiveHoursWest : Z := -18000000.

(** Central European time in 2024: an hour ahead of UTC, two hours from
    2024-03-31 01:00 UTC until 2024-10-27 01:00 UTC.  The second argument
    tells whether [t] is a UTC time or a local one. *)
Definition centralEurope2024 (t : Z) (isUTC : bool) : Z :=
  let spring := MakeDate (MakeDay 2024 2 31) 3600000 in
  let autumn := MakeDate (MakeDay 2024 9 27) 3600000 in
  let shift := if isUTC then 0 else 7200000 in
  if (spring + shift <=? t) && (t <? autumn + shift) then 7200000 else 3600000.

(* ================================================================== *)
(** ** The remaining actions of [App] and the forms that call them *)

(** [todayISO()], [now] being the time value of [new Date()]. *)
Definition todayISO (now : Z) : string := slice0 10 (toISOString now).

(** [deleteTransaction(id)] as the state update it passes to [setDb]. *)
Definition deleteTransaction (id : string) (prev : database) : database :=
  mkDb (filter (fun t => negb (String.eqb (tx_id t) id)) (transactions prev))
       (loansTaken prev) (loansGiven prev).

(** [deleteLoan(kind, loanId)], likewise. *)
Definition deleteLoan (kind : loanKind) (loanId : string) (prev : database)
    : database :=
  setLoans kind
    (filter (fun l => negb (String.eqb (loan_id l) loanId)) (getLoans kind prev))
    prev.

(** [clearAll()], [confirmed] being the answer to [confirm]. *)
Definition clearAll (confirmed : bool) (db : database) : database :=
  if confirmed then mkDb [] [] [] else db.

Section Installments.

Variable LocalTZA : Z -> bool -> Z.
Variable uid : nat -> string.


End Installments.





(** The form as [LoansView] first shows it, and as [createLoan] resets it. *)
Definition initialLoanForm (now : Z) : loanForm :=
  mkLoanForm "" None (todayISO now) "" (Num 0) "".

(** The form [createLoan] leaves behind: reset once the loan has been
    handed to [addLoan], untouched when the handler returns early or is
    left by an exception. *)
Definition loanFormAfter (now : Z) (outcome : submitted) (form : loanForm)
    : loanForm :=
  match outcome with
  | Stored _ => initialLoanForm now
  | Alerted => form
  | Raised _ => form
  end.

(** [l.schedule.filter(s=>s.paid).length], the count a row of [LoansView]
    shows before the slash. *)
Definition paid (l : loan) : nat :=
  List.length (filter inst_paid (loan_schedule l)).

(** A loan with one installment, not yet paid. *)
Definition sampleLoan : loan :=
  mkLoan "L1" "Ali" 1000 "2024-01-15" None 1 ""
    [mkInstallment "i1" "2024-02-15" 1000 false None].

(** Identifiers that differ in length: the [i]-th is [i] strokes. *)
Definition tallyUid (i : nat) : string := repeatChar "I" i.

(** ** Further vocabulary *)



(** The calendar month [m] (from 1) of year [y], counted in months. *)
Definition monthNumber (ym : Z * Z) : Z := 12 * fst ym + snd ym.

(** The calendar day before the first of month [m] of year [y] lies in
    this month. *)
Definition monthBefore (ym : Z * Z) : Z * Z :=
  if snd ym =? 1 then (fst ym - 1, 12) else (fst ym, snd ym - 1).

(* ================================================================== *)
(** * Properties *)

(** ** Calendar arithmetic *)

Section DateFacts.

Lemma YearFromDay_spec d :
  DayFromYear (YearFromDay d) <= d < DayFromYear (YearFromDay d + 1).
Proof.
  unfold YearFromDay.
  set (y0 := 1970 + 400 * d / 146097).
  assert (H1 : DayFromYear (y0 - 1) <= d)
    by (unfold DayFromYear, y0; Z.div_mod_to_equations; lia).
  assert (H2 : d < DayFromYear (y0 + 2))
    by (unfold DayFromYear, y0; Z.div_mod_to_equations; lia).
  destruct (Z.leb_spec (DayFromYear (y0 + 1)) d).
  - replace (y0 + 1 + 1) with (y0 + 2) by lia. lia.
  - destruct (Z.leb_spec (DayFromYear y0) d).
    + lia.
    + replace (y0 - 1 + 1) with y0 by lia. lia.
Qed.

Lemma DayFromYear_succ y : DayFromYear (y + 1) = DayFromYear y + DaysInYear y.
Proof.
  unfold DayFromYear, DaysInYear, isLeapYear.
  destruct (Z.eqb_spec (y mod 4) 0); cbn [negb];
  destruct (Z.eqb_spec (y mod 100) 0); cbn [negb];
  destruct (Z.eqb_spec (y mod 400) 0); cbn [negb];
  Z.div_mod_to_equations; lia.
Qed.

Lemma DayFromYear_mono y y' : y <= y' -> DayFromYear y <= DayFromYear y'.
Proof.
  intros H. unfold DayFromYear. Z.div_mod_to_equations. lia.
Qed.

Lemma YearFromDay_unique y d :
  DayFromYear y <= d < DayFromYear (y + 1) -> YearFromDay d = y.
Proof.
  intros H. pose proof (YearFromDay_spec d) as S.
  destruct (Z.lt_trichotomy (YearFromDay d) y) as [L | [E | G]]; [ | exact E | ].
  - assert (DayFromYear (YearFromDay d + 1) <= DayFromYear y)
      by (apply DayFromYear_mono; lia). lia.
  - assert (DayFromYear (y + 1) <= DayFromYear (YearFromDay d))
      by (apply DayFromYear_mono; lia). lia.
Qed.

Ltac month_cases m :=
  let H := fresh "Hm" in
  assert (H : m = 0 \/ m = 1 \/ m = 2 \/ m = 3 \/ m = 4 \/ m = 5 \/ m = 6 \/
              m = 7 \/ m = 8 \/ m = 9 \/ m = 10 \/ m = 11) by lia;
  repeat (destruct H as [H | H]); subst m.

Ltac decide_ltb :=
  repeat match goal with
         | |- context [?a <? ?b] => destruct (Z.ltb_spec a b); try lia
         end.

Lemma monthOfYearDay_start leap m dt :
  0 <= leap <= 1 -> 0 <= m <= 11 -> 1 <= dt <= daysInMonth leap m ->
  monthOfYearDay leap (monthStart leap m + dt - 1) = m.
Proof.
  intros Hl Hm Hd. month_cases m; cbn [monthStart daysInMonth] in *;
    unfold monthOfYearDay; decide_ltb.
Qed.

Lemma monthOfYearDay_range leap d :
  0 <= leap <= 1 -> 0 <= d < 365 + leap ->
  let m := monthOfYearDay leap d in
  0 <= m <= 11 /\ 1 <= d - monthStart leap m + 1 <= daysInMonth leap m.
Proof.
  intros Hl Hd. unfold monthOfYearDay.
  decide_ltb; cbn [monthStart daysInMonth]; lia.
Qed.

Lemma leapDays_range y : 0 <= leapDays y <= 1.
Proof. unfold leapDays. destruct (isLeapYear y); lia. Qed.

Lemma DaysInYear_leap y : DaysInYear y = 365 + leapDays y.
Proof. unfold DaysInYear, leapDays. destruct (isLeapYear y); lia. Qed.

(** The calendar fields of a time value. *)
Lemma fields_of_time t y m dt :
  0 <= m <= 11 -> 1 <= dt <= daysInMonth (leapDays y) m ->
  Day t = DayFromYear y + monthStart (leapDays y) m + dt - 1 ->
  YearFromTime t = y /\ MonthFromTime t = m /\ DateFromTime t = dt.
Proof.
  intros Hm Hd HD.
  pose proof (leapDays_range y) as Hl.
  assert (Hy : YearFromTime t = y).
  { unfold YearFromTime. apply YearFromDay_unique.
    rewrite DayFromYear_succ, DaysInYear_leap, HD.
    month_cases m; cbn [monthStart daysInMonth] in *; lia. }
  assert (Hw : DayWithinYear t = monthStart (leapDays y) m + dt - 1)
    by (unfold DayWithinYear; rewrite Hy; lia).
  assert (Hi : InLeapYear t = leapDays y)
    by (unfold InLeapYear, leapDays; rewrite Hy; reflexivity).
  assert (Hmo : MonthFromTime t = m).
  { unfold MonthFromTime. rewrite Hi, Hw.
    apply monthOfYearDay_start; assumption. }
  repeat split; try assumption.
  unfold DateFromTime. rewrite Hi, Hw, Hmo. lia.
Qed.

Lemma time_of_fields t :
  0 <= MonthFromTime t <= 11 /\
  1 <= DateFromTime t <= daysInMonth (leapDays (YearFromTime t)) (MonthFromTime t) /\
  Day t = DayFromYear (YearFromTime t)
          + monthStart (leapDays (YearFromTime t)) (MonthFromTime t)
          + DateFromTime t - 1.
Proof.
  pose proof (YearFromDay_spec (Day t)) as S.
  rewrite DayFromYear_succ, DaysInYear_leap in S.
  pose proof (leapDays_range (YearFromDay (Day t))) as Hl.
  unfold DateFromTime, MonthFromTime, InLeapYear, DayWithinYear, YearFromTime.
  fold (leapDays (YearFromDay (Day t))).
  set (y := YearFromDay (Day t)) in *.
  assert (Hw : 0 <= Day t - DayFromYear y < 365 + leapDays y) by lia.
  pose proof (monthOfYearDay_range (leapDays y) (Day t - DayFromYear y) Hl Hw) as R.
  cbn zeta in R. lia.
Qed.

Lemma MakeDay_month y m dt :
  0 <= m <= 11 ->
  MakeDay y m dt = DayFromYear y + monthStart (leapDays y) m + dt - 1.
Proof.
  intros Hm. unfold MakeDay.
  replace (m / 12) with 0 by (Z.div_mod_to_equations; lia).
  replace (m mod 12) with m by (Z.div_mod_to_equations; lia).
  rewrite Z.add_0_r. reflexivity.
Qed.

Lemma MakeDay_index y m dt : MakeDay y m dt = MakeDay 0 (12 * y + m) dt.
Proof.
  unfold MakeDay.
  replace ((12 * y + m) / 12) with (y + m / 12) by (Z.div_mod_to_equations; lia).
  replace ((12 * y + m) mod 12) with (m mod 12) by (Z.div_mod_to_equations; lia).
  reflexivity.
Qed.

Lemma monthStart_next leap m :
  0 <= leap <= 1 -> 0 <= m < 11 ->
  monthStart leap m + 28 <= monthStart leap (m + 1).
Proof.
  intros Hl Hm.
  assert (H : m = 0 \/ m = 1 \/ m = 2 \/ m = 3 \/ m = 4 \/ m = 5 \/ m = 6 \/
              m = 7 \/ m = 8 \/ m = 9 \/ m = 10) by lia.
  repeat (destruct H as [H | H]); subst m;
    match goal with
    | |- context [monthStart _ (?a + 1)] =>
        let v := eval compute in (a + 1) in change (a + 1) with v
    end; cbn [monthStart]; lia.
Qed.

Lemma MakeDay_next_month M dt : MakeDay 0 M dt + 28 <= MakeDay 0 (M + 1) dt.
Proof.
  unfold MakeDay. rewrite !Z.add_0_l.
  fold (leapDays (M / 12)). fold (leapDays ((M + 1) / 12)).
  assert (C : (M mod 12 = 11 /\ (M + 1) mod 12 = 0 /\ (M + 1) / 12 = M / 12 + 1) \/
              (0 <= M mod 12 < 11 /\ (M + 1) mod 12 = M mod 12 + 1 /\
               (M + 1) / 12 = M / 12))
    by (Z.div_mod_to_equations; lia).
  destruct C as [(E1 & E2 & E3) | (E1 & E2 & E3)]; rewrite E2, E3.
  - rewrite E1, DayFromYear_succ, DaysInYear_leap.
    pose proof (leapDays_range (M / 12)). cbn [monthStart]. lia.
  - pose proof (monthStart_next (leapDays (M / 12)) (M mod 12)
                  (leapDays_range _) E1). lia.
Qed.

Lemma MakeDay_months_mono M k dt :
  0 <= k -> MakeDay 0 M dt + 28 * k <= MakeDay 0 (M + k) dt.
Proof.
  intros Hk. revert k Hk. apply natlike_ind.
  - replace (M + 0) with M by lia. lia.
  - intros k Hk IH. replace (M + Z.succ k) with (M + k + 1) by lia.
    pose proof (MakeDay_next_month (M + k) dt). lia.
Qed.
End DateFacts.

(** ** Rounding *)

Section RoundFacts.

Local Open Scope Q_scope.




#[global] Instance Math_round_comp : Proper (Qeq ==> Qeq) Math_round.
Proof.
  intros x y E. unfold Math_round. rewrite E. reflexivity.
Qed.

End RoundFacts.

(** ** Date texts *)

Section StringFacts.
Local Open Scope Z_scope.

Lemma digitOf_range c x : digitOf c = Some x -> 0 <= x <= 9.
Proof.
  unfold digitOf. intros H.
  destruct (Z.leb_spec 48 (Z.of_nat (nat_of_ascii c)));
  destruct (Z.leb_spec (Z.of_nat (nat_of_ascii c)) 57);
  cbn [andb] in H; inversion H; lia.
Qed.

Lemma num2_range a b x : num2 a b = Some x -> 0 <= x <= 99.
Proof.
  unfold num2. intros H.
  destruct (digitOf a) eqn:Ea; [ | discriminate ].
  destruct (digitOf b) eqn:Eb; [ | discriminate ].
  apply digitOf_range in Ea. apply digitOf_range in Eb.
  assert (E : 10 * z + z0 = x) by congruence. lia.
Qed.

Lemma num4_range a b c d x : num4 a b c d = Some x -> 0 <= x <= 9999.
Proof.
  unfold num4. intros H.
  destruct (num2 a b) eqn:Ea; [ | discriminate ].
  destruct (num2 c d) eqn:Eb; [ | discriminate ].
  apply num2_range in Ea. apply num2_range in Eb.
  assert (E : 100 * z + z0 = x) by congruence. lia.
Qed.

Lemma isoFields_range s y m d :
  isoFields s = Some (y, m, d) ->
  0 <= y <= 9999 /\ 1 <= m <= 12 /\ 1 <= d <= 31.
Proof.
  unfold isoFields. intros H.
  do 10 (destruct s as [ | ? s ]; [ discriminate | ]).
  destruct s; [ | discriminate ].
  destruct (_ && _)%bool; [ | discriminate ].
  destruct (num4 _ _ _ _) eqn:Ey; [ | discriminate ].
  destruct (num2 a4 a5) eqn:Em; [ | discriminate ].
  destruct (num2 a7 a8) eqn:Ed; [ | discriminate ].
  apply num4_range in Ey.
  destruct (Z.leb_spec 1 z0); destruct (Z.leb_spec z0 12);
  destruct (Z.leb_spec 1 z1); destruct (Z.leb_spec z1 31);
  cbn [andb] in H; try discriminate;
  assert (E : (z, z0, z1) = (y, m, d)) by congruence;
  injection E as <- <- <-; lia.
Qed.
End StringFacts.

(** ** No round of the schedule loop fails on a date *)

Section RangeFacts.
Local Open Scope Z_scope.

Lemma monthStart_range leap m :
  0 <= leap <= 1 -> 0 <= monthStart leap m <= 335.
Proof.
  intros Hl. unfold monthStart.
  repeat match goal with
         | |- context [match ?x with _ => _ end] => destruct x
         end; lia.
Qed.

Lemma daysInMonth_range leap m : 0 <= leap <= 1 -> 28 <= daysInMonth leap m <= 31.
Proof.
  intros Hl. unfold daysInMonth.
  repeat match goal with
         | |- context [match ?x with _ => _ end] => destruct x
         end; lia.
Qed.

Lemma DayFromYear_bounds y lo hi :
  lo <= y <= hi -> DayFromYear lo <= DayFromYear y <= DayFromYear hi.
Proof. intros H. split; apply DayFromYear_mono; lia. Qed.

Lemma MakeDay_bounds y m dt lo hi :
  lo <= y + m / 12 <= hi -> 1 <= dt <= 31 ->
  DayFromYear lo <= MakeDay y m dt <= DayFromYear hi + 365.
Proof.
  intros Hy Hd. unfold MakeDay.
  pose proof (DayFromYear_bounds _ _ _ Hy).
  pose proof (monthStart_range (if isLeapYear (y + m / 12) then 1 else 0) (m mod 12)
                (leapDays_range _)).
  lia.
Qed.

Lemma YearFromDay_bounds d lo hi :
  DayFromYear lo <= d < DayFromYear (hi + 1) -> lo <= YearFromDay d <= hi.
Proof.
  intros H. pose proof (YearFromDay_spec d) as S.
  split.
  - destruct (Z_lt_le_dec (YearFromDay d) lo) as [L | ]; [ | assumption ].
    assert (DayFromYear (YearFromDay d + 1) <= DayFromYear lo)
      by (apply DayFromYear_mono; lia). lia.
  - destruct (Z_lt_le_dec hi (YearFromDay d)) as [L | ]; [ | assumption ].
    assert (DayFromYear (hi + 1) <= DayFromYear (YearFromDay d))
      by (apply DayFromYear_mono; lia). lia.
Qed.


Lemma DayFromYear_m1 : DayFromYear (-1) = -719893.
Proof. reflexivity. Qed.
Lemma DayFromYear_0 : DayFromYear 0 = -719528.
Proof. reflexivity. Qed.
Lemma DayFromYear_9999 : DayFromYear 9999 = 2932532.
Proof. reflexivity. Qed.
Lemma DayFromYear_10001 : DayFromYear 10001 = 2933263.
Proof. reflexivity. Qed.
Lemma DayFromYear_260002 : DayFromYear 260002 = 94244253.
Proof. reflexivity. Qed.

Lemma TimeClip_ok nd w off :
  -719893 <= nd <= 94244253 + 365 -> 0 <= w < msPerDay -> Z.abs off <= msPerDay ->
  TimeClip (nd * msPerDay + w - off) = Some (nd * msPerDay + w - off).
Proof.
  intros Hn Hw Ho. unfold TimeClip.
  destruct (Z.leb_spec (Z.abs (nd * msPerDay + w - off)) maxTime) as [ | L ];
    [ reflexivity | ].
  unfold msPerDay, maxTime in *. lia.
Qed.

Lemma startDay_bounds y m d :
  0 <= y <= 9999 -> 1 <= m <= 12 -> 1 <= d <= 31 ->
  -719528 <= MakeDay y (m - 1) d <= 2932532 + 365.
Proof.
  intros Hy Hm Hd. rewrite <- DayFromYear_0, <- DayFromYear_9999.
  apply MakeDay_bounds; [ | assumption ].
  replace ((m - 1) / 12) with 0 by (Z.div_mod_to_equations; lia). lia.
Qed.

Lemma parseDate_ok start y m d :
  isoFields start = Some (y, m, d) ->
  parseDate start = Some (MakeDay y (m - 1) d * msPerDay).
Proof.
  intros H. unfold parseDate. rewrite H.
  apply isoFields_range in H. destruct H as (Hy & Hm & Hd).
  pose proof (startDay_bounds y m d Hy Hm Hd) as B.
  unfold MakeDate.
  replace (MakeDay y (m - 1) d * msPerDay + 0)
    with (MakeDay y (m - 1) d * msPerDay + 0 - 0) by lia.
  rewrite TimeClip_ok; [ f_equal; lia | lia | unfold msPerDay; lia | unfold msPerDay; lia ].
Qed.

Lemma Day_shift D off :
  Z.abs off <= msPerDay -> D - 1 <= Day (D * msPerDay + off) <= D + 1.
Proof.
  intros Ho. unfold Day, msPerDay in *. Z.div_mod_to_equations. lia.
Qed.

Lemma TimeWithinDay_range t : 0 <= TimeWithinDay t < msPerDay.
Proof. unfold TimeWithinDay, msPerDay. Z.div_mod_to_equations. lia. Qed.

Lemma localYear_bounds D t :
  -719528 <= D <= 2932532 + 365 -> D - 1 <= Day t <= D + 1 ->
  -1 <= YearFromTime t <= 10000.
Proof.
  intros HD Ht. unfold YearFromTime. apply YearFromDay_bounds.
  change (10000 + 1) with 10001.
  rewrite DayFromYear_m1, DayFromYear_10001. lia.
Qed.

Lemma dueDay_bounds y m dt i :
  -1 <= y <= 10000 -> 0 <= m <= 11 -> 1 <= dt <= 31 -> 0 <= i <= 3000000 ->
  -719893 <= MakeDay y (m + i + 1) dt <= 94244253 + 365.
Proof.
  intros Hy Hm Hd Hi. rewrite <- DayFromYear_m1, <- DayFromYear_260002.
  apply MakeDay_bounds; [ | assumption ].
  Z.div_mod_to_equations. lia.
Qed.

Variable LocalTZA : Z -> bool -> Z.
Hypothesis zone_bound : forall t b, Z.abs (LocalTZA t b) <= msPerDay.

Lemma dueDateAt_ok start y m d i :
  isoFields start = Some (y, m, d) -> Z.of_nat i <= 3000000 ->
  exists due, dueDateAt LocalTZA (parseDate start) i = inr due.
Proof.
  intros H Hi. rewrite (parseDate_ok _ _ _ _ H).
  apply isoFields_range in H. destruct H as (Hy & Hm & Hd).
  pose proof (startDay_bounds y m d Hy Hm Hd) as B0.
  unfold dueDateAt, getMonth, setMonth. cbn [option_map].
  unfold LocalTime, UTC, MakeDate.
  pose proof (Day_shift (MakeDay y (m - 1) d) _
                (zone_bound (MakeDay y (m - 1) d * msPerDay) true)) as Bt.
  generalize dependent (MakeDay y (m - 1) d * msPerDay
                        + LocalTZA (MakeDay y (m - 1) d * msPerDay) true).
  intros t Bt.
  pose proof (localYear_bounds _ t B0 Bt) as By.
  destruct (time_of_fields t) as (Bm & Bd & _).
  pose proof (daysInMonth_range (leapDays (YearFromTime t)) (MonthFromTime t)
                (leapDays_range _)) as Bl.
  rewrite TimeClip_ok.
  - eexists. reflexivity.
  - apply dueDay_bounds; lia.
  - apply TimeWithinDay_range.
  - apply zone_bound.
Qed.

End RangeFacts.

(** ** The shape and the total of a generated schedule *)

Section ScheduleFacts.

Variable LocalTZA : Z -> bool -> Z.
Variable uid : nat -> string.

Local Open Scope Q_scope.

Lemma pushInstallments_ok due s per k : forall i lst,
  (forall j, (i <= j < i + k)%nat -> dueDateAt LocalTZA s j = inr (due j)) ->
  pushInstallments LocalTZA uid s per k i lst
  = inr (lst ++ map (pushed uid due per) (seq i k)).
Proof.
  induction k as [ | k IH ]; intros i lst H; cbn [pushInstallments seq map].
  - rewrite app_nil_r. reflexivity.
  - rewrite (H i) by lia. rewrite IH by (intros j Hj; apply H; lia).
    rewrite <- app_assoc. reflexivity.
Qed.




Lemma generateSchedule_shape due amt start count k :
  rounds count = S k ->
  (forall j, (j < S k)%nat -> dueDateAt LocalTZA (parseDate start) j = inr (due j)) ->
  generateSchedule LocalTZA uid amt start count
  = inr (map (pushed uid due (perAmount amt count)) (seq 0 k)
         ++ [mkInstallment (uid k) (due k) (lastAmount uid due amt count (S k)) false None]).
Proof.
  intros Hk Hd. unfold generateSchedule. rewrite Hk.
  rewrite (pushInstallments_ok due) by (intros j Hj; apply Hd; lia).
  cbn [app]. fold (perAmount amt count).
  set (per := perAmount amt count).
  assert (R : rev (map (pushed uid due per) (seq 0 (S k)))
              = pushed uid due per k :: rev (map (pushed uid due per) (seq 0 k))).
  { rewrite seq_S, map_app, rev_app_distr. reflexivity. }
  rewrite R, rev_involutive. reflexivity.
Qed.

Lemma generateSchedule_empty amt start count :
  rounds count = O -> generateSchedule LocalTZA uid amt start count = inl TypeError.
Proof. intros Hk. unfold generateSchedule. rewrite Hk. reflexivity. Qed.


End ScheduleFacts.

(** ** Writing and reading date texts *)

Section TextFacts.
Local Open Scope Z_scope.

Lemma digitOf_digitChar n : 0 <= n <= 9 -> digitOf (digitChar n) = Some n.
Proof.
  intros H. remember (Z.to_nat n) as k eqn:Ek.
  assert (En : n = Z.of_nat k) by lia. subst n. clear Ek.
  do 10 (destruct k as [ | k ]; [ reflexivity | ]). lia.
Qed.

Lemma num2_digits n :
  0 <= n <= 99 -> num2 (digitChar (n / 10 mod 10)) (digitChar (n mod 10)) = Some n.
Proof.
  intros H. unfold num2.
  rewrite !digitOf_digitChar by (Z.div_mod_to_equations; lia).
  f_equal. Z.div_mod_to_equations. lia.
Qed.

Lemma num4_digits n :
  0 <= n <= 9999 ->
  num4 (digitChar (n / 1000 mod 10)) (digitChar (n / 100 mod 10))
       (digitChar (n / 10 mod 10)) (digitChar (n mod 10)) = Some n.
Proof.
  intros H. unfold num4.
  replace (n / 1000 mod 10) with ((n / 100) / 10 mod 10)
    by (rewrite Z.div_div by lia; reflexivity).
  replace (n / 100 mod 10) with ((n / 100) mod 10) by reflexivity.
  rewrite (num2_digits (n / 100)) by (Z.div_mod_to_equations; lia).
  replace (n / 10 mod 10) with ((n mod 100) / 10 mod 10)
    by (Z.div_mod_to_equations; lia).
  replace (n mod 10) with ((n mod 100) mod 10) by (Z.div_mod_to_equations; lia).
  rewrite (num2_digits (n mod 100)) by (Z.div_mod_to_equations; lia).
  f_equal. Z.div_mod_to_equations. lia.
Qed.

Lemma isoFields_isoDate y m d :
  0 <= y <= 9999 -> 1 <= m <= 12 -> 1 <= d <= 31 ->
  isoFields (isoDate y m d) = Some (y, m, d).
Proof.
  intros Hy Hm Hd. unfold isoDate, pad4, pad3, pad2.
  cbn [String.append isoFields]. 
  change (Ascii.eqb "-" "-") with true. cbn [andb].
  rewrite num4_digits, !num2_digits by lia.
  destruct (Z.leb_spec 1 m); [ | lia ]. destruct (Z.leb_spec m 12); [ | lia ].
  destruct (Z.leb_spec 1 d); [ | lia ]. destruct (Z.leb_spec d 31); [ | lia ].
  reflexivity.
Qed.

Lemma slice_toISOString t :
  0 <= YearFromTime t <= 9999 ->
  slice0 10 (toISOString t)
  = isoDate (YearFromTime t) (MonthFromTime t + 1) (DateFromTime t).
Proof.
  intros Hy. unfold toISOString, isoYear.
  destruct (Z.leb_spec 0 (YearFromTime t)); [ | lia ].
  destruct (Z.leb_spec (YearFromTime t) 9999); [ | lia ].
  cbn [andb]. unfold isoDate, pad4, pad3, pad2, slice0.
  cbn [String.append String.substring]. reflexivity.
Qed.

End TextFacts.

(** ** Due dates in a zone with a constant offset *)

Section FixedZoneFacts.
Local Open Scope Z_scope.

Lemma monthStart_le leap m : 0 <= leap -> monthStart leap m <= 334 + leap.
Proof.
  intros Hl. unfold monthStart.
  repeat match goal with
         | |- context [match ?x with _ => _ end] => destruct x
         end; lia.
Qed.

Lemma Day_midnight D off : 0 <= off < msPerDay -> Day (D * msPerDay + off) = D.
Proof. intros H. unfold Day, msPerDay in *. Z.div_mod_to_equations. lia. Qed.

Lemma TimeWithinDay_midnight D off :
  0 <= off < msPerDay -> TimeWithinDay (D * msPerDay + off) = off.
Proof. intros H. unfold TimeWithinDay, msPerDay in *. Z.div_mod_to_equations. lia. Qed.

(** The year of the day that MakeDay gives for a day number up to 31. *)
Lemma MakeDay_year y m dt :
  1 <= dt <= 31 ->
  DayFromYear (y + m / 12) <= MakeDay y m dt < DayFromYear (y + m / 12 + 1).
Proof.
  intros Hd. unfold MakeDay. fold (leapDays (y + m / 12)).
  rewrite DayFromYear_succ, DaysInYear_leap.
  pose proof (leapDays_range (y + m / 12)) as Hl.
  pose proof (monthStart_le (leapDays (y + m / 12)) (m mod 12)) as H1.
  pose proof (monthStart_range (leapDays (y + m / 12)) (m mod 12) Hl) as H2.
  lia.
Qed.

Lemma MakeDay_of_fields t :
  MakeDay (YearFromTime t) (MonthFromTime t) (DateFromTime t) = Day t.
Proof.
  destruct (time_of_fields t) as (Hm & Hd & E).
  rewrite MakeDay_month by assumption. lia.
Qed.

(** The text of the day [D] (a day number since the epoch), as
    [toISOString().slice(0,10)] of its midnight gives it, reads back as
    that midnight. *)
Lemma parseDate_slice D :
  DayFromYear 0 <= D < DayFromYear 10000 ->
  parseDate (slice0 10 (toISOString (D * msPerDay))) = Some (D * msPerDay).
Proof.
  intros HD.
  assert (Dt : Day (D * msPerDay) = D).
  { rewrite <- (Z.add_0_r (D * msPerDay)). apply Day_midnight. unfold msPerDay. lia. }
  assert (Hy : 0 <= YearFromTime (D * msPerDay) <= 9999).
  { unfold YearFromTime. rewrite Dt. apply YearFromDay_bounds.
    change (9999 + 1) with 10000. assumption. }
  rewrite slice_toISOString by assumption.
  destruct (time_of_fields (D * msPerDay)) as (Hm & Hd & E).
  pose proof (daysInMonth_range (leapDays (YearFromTime (D * msPerDay)))
                (MonthFromTime (D * msPerDay)) (leapDays_range _)) as Hl.
  rewrite (parseDate_ok _ (YearFromTime (D * msPerDay))
             (MonthFromTime (D * msPerDay) + 1) (DateFromTime (D * msPerDay)))
    by (apply isoFields_isoDate; lia).
  replace (MonthFromTime (D * msPerDay) + 1 - 1) with (MonthFromTime (D * msPerDay)) by lia.
  rewrite MakeDay_of_fields, Dt. reflexivity.
Qed.

Variable off : Z.
Hypothesis off_range : 0 <= off < msPerDay.

(** In a zone with a constant offset that is not negative, round [i]
    finds the date MakeDay gives for [i + 1] months after the start. *)
Lemma dueDateAt_fixedZone start y m d i :
  isoFields start = Some (y, m, d) ->
  d <= daysInMonth (leapDays y) (m - 1) ->
  Z.of_nat i <= 3000000 ->
  dueDateAt (fixedZone off) (parseDate start) i
  = inr (slice0 10 (toISOString (MakeDay y (m + Z.of_nat i) d * msPerDay))).
Proof.
  intros Hs Hv Hi. rewrite (parseDate_ok _ _ _ _ Hs).
  apply isoFields_range in Hs. destruct Hs as (Hy & Hm & Hd).
  unfold dueDateAt, getMonth, setMonth. cbn [option_map].
  unfold LocalTime, UTC, MakeDate, fixedZone.
  set (t := MakeDay y (m - 1) d * msPerDay + off).
  assert (Dt : Day t = MakeDay y (m - 1) d) by (apply Day_midnight; assumption).
  assert (Wt : TimeWithinDay t = off) by (apply TimeWithinDay_midnight; assumption).
  rewrite MakeDay_month in Dt by lia.
  destruct (fields_of_time t y (m - 1) d) as (Fy & Fm & Fd); [ lia | lia | exact Dt | ].
  rewrite Fy, Fm, Fd, Wt.
  replace (m - 1 + Z.of_nat i + 1) with (m + Z.of_nat i) by lia.
  rewrite TimeClip_ok.
  - f_equal. f_equal. f_equal. lia.
  - replace (m + Z.of_nat i) with (m - 1 + Z.of_nat i + 1) by lia.
    apply dueDay_bounds; lia.
  - assumption.
  - lia.
Qed.

End FixedZoneFacts.

(** ** The schedule generator *)

Section ScheduleClaims.

Variable LocalTZA : Z -> bool -> Z.
Variable uid : nat -> string.

Lemma rounds_inject_Z n : rounds (inject_Z n) = Z.to_nat n.
Proof. unfold rounds. rewrite Qceiling_Z. reflexivity. Qed.

Lemma calendarDate_fields start y m d :
  calendarDate start = Some (y, m, d) ->
  isoFields start = Some (y, m, d) /\ (d <= daysInMonth (leapDays y) (m - 1))%Z.
Proof.
  unfold calendarDate. destruct (isoFields start) as [ [[y0 m0] d0] | ]; [ | discriminate ].
  destruct (Z.leb_spec d0 (daysInMonth (leapDays y0) (m0 - 1))); [ | discriminate ].
  intros E. injection E as <- <- <-. split; [ reflexivity | assumption ].
Qed.

(** A generated schedule, for a count of [n >= 1] whose rounds all find a
    date. *)
Lemma generateSchedule_returns amt start y m d n :
  (forall t b, (Z.abs (LocalTZA t b) <= msPerDay)%Z) ->
  isoFields start = Some (y, m, d) ->
  (1 <= n <= 3000000)%Z ->
  exists due k,
    Z.to_nat n = S k /\
    generateSchedule LocalTZA uid amt start (inject_Z n)
    = inr (map (pushed uid due (perAmount amt (inject_Z n))) (seq 0 k)
           ++ [mkInstallment (uid k) (due k)
                 (lastAmount uid due amt (inject_Z n) (S k)) false None]).
Proof.
  intros Hz Hs Hn.
  set (due := fun j => match dueDateAt LocalTZA (parseDate start) j with
                       | inr x => x
                       | inl _ => EmptyString
                       end).
  destruct (Z.to_nat n) as [ | k ] eqn:Ek; [ lia | ].
  exists due, k. split; [ reflexivity | ].
  apply generateSchedule_shape.
  - rewrite rounds_inject_Z. assumption.
  - intros j Hj.
    destruct (dueDateAt_ok LocalTZA Hz start y m d j Hs) as [x Hx]; [ lia | ].
    unfold due. rewrite Hx. reflexivity.
Qed.

End ScheduleClaims.

(** C2. For a start date that is a calendar date in the form YYYY-MM-DD
    and a count [n] of at least 1 (and at most 3,000,000, which keeps
    every due date inside the range of [Date]), whatever the principal,
    the identifiers and the local time zone (its offset being within a
    day of UTC), [generateSchedule] returns exactly [n] installments,
    each with [paid = false] and [paidDate = null]. *)
Theorem schedule_length :
  forall (LocalTZA : Z -> bool -> Z) (uid : nat -> string)
         (p : Q) (start : string) (y m d n : Z),
    (forall t b, (Z.abs (LocalTZA t b) <= msPerDay)%Z) ->
    calendarDate start = Some (y, m, d) ->
    (1 <= n <= 3000000)%Z ->
    exists l,
      generateSchedule LocalTZA uid p start (inject_Z n) = inr l /\
      Z.of_nat (List.length l) = n /\
      Forall (fun s => inst_paid s = false /\ inst_paidDate s = None) l.
Proof.
  intros tz uid p start y m d n Hz Hs Hn.
  apply calendarDate_fields in Hs. destruct Hs as (Hs & _).
  destruct (generateSchedule_returns tz uid p start y m d n Hz Hs Hn)
    as (due & k & Ek & E).
  eexists. split; [ exact E | ]. split.
  - rewrite length_app, length_map, length_seq. cbn [List.length]. lia.
  - apply Forall_app. split.
    + apply Forall_forall. intros s Hin. apply in_map_iff in Hin.
      destruct Hin as (i & <- & _). split; reflexivity.
    + constructor; [ split; reflexivity | constructor ].
Qed.

Lemma schedule_length_witness :
  exists l,
    generateSchedule (fixedZone 0) sampleUid 1000 "2024-01-15" (inject_Z 3) = inr l /\
    Z.of_nat (List.length l) = 3%Z /\
    Forall (fun s => inst_paid s = false /\ inst_paidDate s = None) l.
Proof.
  apply (schedule_length (fixedZone 0) sampleUid 1000 "2024-01-15" 2024 1 15 3).
  - intros t b. vm_compute. discriminate.
  - reflexivity.
  - lia.
Defined.



Section DueDateClaims.
Local Open Scope Z_scope.

Lemma schedule_nth uid due per last k i a :
  nth_error (map (pushed uid due per) (seq 0 k)
             ++ [mkInstallment (uid k) (due k) last false None]) i = Some a ->
  (i <= k)%nat /\ inst_dueDate a = due i /\ inst_id a = uid i.
Proof.
  intros H. destruct (Nat.lt_ge_cases i k) as [L | G].
  - rewrite nth_error_app1 in H by (rewrite length_map, length_seq; assumption).
    rewrite nth_error_map, nth_error_seq in H.
    destruct (Nat.ltb_spec i k); [ | lia ].
    cbn in H. injection H as <-. repeat split. lia.
  - rewrite nth_error_app2 in H by (rewrite length_map, length_seq; assumption).
    rewrite length_map, length_seq in H.
    destruct (i - k)%nat as [ | r ] eqn:E.
    + cbn in H. injection H as <-. assert (i = k) by lia. subst i. repeat split. lia.
    + cbn in H. destruct r; discriminate.
Qed.

(** The day on which round [i] falls due: MakeDay of the start moved on
    by [i + 1] months. *)
Lemma dueDay_in_range y m d i :
  0 <= y -> 1 <= m -> 1 <= d <= 31 -> 0 <= i -> y + (m + i) / 12 <= 9999 ->
  DayFromYear 0 <= MakeDay y (m + i) d < DayFromYear 10000.
Proof.
  intros Hy Hm Hd Hi Hl.
  pose proof (MakeDay_year y (m + i) d Hd) as B.
  assert (0 <= (m + i) / 12) by (Z.div_mod_to_equations; lia).
  pose proof (DayFromYear_mono 0 (y + (m + i) / 12)).
  pose proof (DayFromYear_mono (y + (m + i) / 12 + 1) 10000).
  lia.
Qed.

Lemma dueDay_increasing y m d i j :
  0 <= i < j -> MakeDay y (m + i) d < MakeDay y (m + j) d.
Proof.
  intros H. rewrite (MakeDay_index y (m + i)), (MakeDay_index y (m + j)).
  pose proof (MakeDay_months_mono (12 * y + (m + i)) (j - i) d).
  replace (12 * y + (m + i) + (j - i)) with (12 * y + (m + j)) in * by lia.
  lia.
Qed.

(** The text of a due day whose month is long enough for the day
    number. *)
Lemma dueDay_text y m d k :
  0 <= y -> 1 <= m -> 0 <= k -> y + (m + k) / 12 <= 9999 ->
  1 <= d <= daysInMonth (leapDays (y + (m + k) / 12)) ((m + k) mod 12) ->
  slice0 10 (toISOString (MakeDay y (m + k) d * msPerDay))
  = isoDate (y + (m + k) / 12) ((m + k) mod 12 + 1) d.
Proof.
  intros Hy Hm Hk Hl Hd.
  set (t := MakeDay y (m + k) d * msPerDay).
  assert (Dt : Day t = MakeDay y (m + k) d).
  { unfold t. rewrite <- (Z.add_0_r (_ * msPerDay)). apply Day_midnight.
    unfold msPerDay. lia. }
  destruct (fields_of_time t (y + (m + k) / 12) ((m + k) mod 12) d) as (Fy & Fm & Fd).
  - Z.div_mod_to_equations. lia.
  - assumption.
  - rewrite Dt. reflexivity.
  - rewrite slice_toISOString; [ rewrite Fy, Fm, Fd; reflexivity | ].
    rewrite Fy. assert (0 <= (m + k) / 12) by (Z.div_mod_to_equations; lia). lia.
Qed.

(** The due dates of a schedule generated in a zone with a constant,
    non-negative offset. *)
Lemma generateSchedule_fixedZone off uid p start y m d n :
  0 <= off < msPerDay ->
  isoFields start = Some (y, m, d) ->
  d <= daysInMonth (leapDays y) (m - 1) ->
  1 <= n <= 3000000 ->
  exists l,
    generateSchedule (fixedZone off) uid p start (inject_Z n) = inr l /\
    Z.of_nat (List.length l) = n /\
    forall i a, nth_error l i = Some a ->
      Z.of_nat i < n /\
      inst_dueDate a
      = slice0 10 (toISOString (MakeDay y (m + Z.of_nat i) d * msPerDay)).
Proof.
  intros Ho Hs Hv Hn.
  set (due := fun j : nat =>
                slice0 10 (toISOString (MakeDay y (m + Z.of_nat j) d * msPerDay))).
  destruct (Z.to_nat n) as [ | k ] eqn:Ek; [ lia | ].
  eexists. split; [ | split ].
  - apply (generateSchedule_shape (fixedZone off) uid due p start (inject_Z n) k).
    + rewrite rounds_inject_Z. assumption.
    + intros j Hj. apply dueDateAt_fixedZone; try assumption. lia.
  - rewrite length_app, length_map, length_seq. cbn [List.length]. lia.
  - intros i a H. apply schedule_nth in H. destruct H as (Hi & Hd & _).
    split; [ lia | exact Hd ].
Qed.

End DueDateClaims.

(** C3 (amended).  In a local time zone whose offset from UTC is constant
    and not negative, for a start date that is a calendar date and a count
    [n >= 1] whose last installment falls due by the year 9999:
    the schedule has [n] installments whose due dates are strictly
    increasing; installment [i] is due on the day of the month of the
    start, [i + 1] calendar months after it, whenever that month has such
    a day (always, when the day is at most 28); and
    [generateSchedule(1000, "2024-01-15", 3)] yields the due dates
    2024-02-15, 2024-03-15, 2024-04-15 with the amounts 333.33, 333.33,
    333.34. *)
Theorem schedule_due_dates :
  forall (off : Z) (uid : nat -> string) (p : Q) (start : string) (y m d n : Z),
    (0 <= off < msPerDay)%Z ->
    calendarDate start = Some (y, m, d) ->
    (1 <= n)%Z ->
    (y + (m + n - 1) / 12 <= 9999)%Z ->
    (exists l,
       generateSchedule (fixedZone off) uid p start (inject_Z n) = inr l /\
       Z.of_nat (List.length l) = n /\
       (forall i j a b, (i < j)%nat ->
          nth_error l i = Some a -> nth_error l j = Some b ->
          exists ta tb,
            parseDate (inst_dueDate a) = Some ta /\
            parseDate (inst_dueDate b) = Some tb /\ (ta < tb)%Z) /\
       (forall i a, nth_error l i = Some a ->
          let year := (y + (m + Z.of_nat i) / 12)%Z in
          let month := ((m + Z.of_nat i) mod 12)%Z in
          (d <= 28 \/ d <= daysInMonth (leapDays year) month)%Z ->
          inst_dueDate a = isoDate year (month + 1) d)) /\
    (exists a b c,
       generateSchedule (fixedZone off) uid 1000 "2024-01-15" 3 = inr [a; b; c] /\
       inst_dueDate a = "2024-02-15"%string /\
       inst_dueDate b = "2024-03-15"%string /\
       inst_dueDate c = "2024-04-15"%string /\
       inst_amount a == 333.33 /\ inst_amount b == 333.33 /\
       inst_amount c == 333.34).
Proof.
  intros off uid p start y m d n Ho Hs Hn Hl.
  apply calendarDate_fields in Hs. destruct Hs as (Hs & Hv).
  pose proof (isoFields_range _ _ _ _ Hs) as (Hy & Hm & Hd).
  assert (Hn' : (1 <= n <= 3000000)%Z) by (Z.div_mod_to_equations; lia).
  split.
  - destruct (generateSchedule_fixedZone off uid p start y m d n Ho Hs Hv Hn')
      as (l & E & Len & Due).
    exists l. split; [ exact E | ]. split; [ exact Len | ]. split.
    + intros i j a b Hij Ha Hb.
      destruct (Due i a Ha) as (Hi & Da). destruct (Due j b Hb) as (Hj & Db).
      exists (MakeDay y (m + Z.of_nat i) d * msPerDay)%Z,
             (MakeDay y (m + Z.of_nat j) d * msPerDay)%Z.
      rewrite Da, Db.
      assert (Ri : (y + (m + Z.of_nat i) / 12 <= 9999)%Z)
        by (Z.div_mod_to_equations; lia).
      assert (Rj : (y + (m + Z.of_nat j) / 12 <= 9999)%Z)
        by (Z.div_mod_to_equations; lia).
      split; [ apply parseDate_slice, dueDay_in_range; lia | ].
      split; [ apply parseDate_slice, dueDay_in_range; lia | ].
      pose proof (dueDay_increasing y m d (Z.of_nat i) (Z.of_nat j)).
      unfold msPerDay. lia.
    + intros i a Ha year month Hlong. destruct (Due i a Ha) as (Hi & Da). rewrite Da.
      assert (Ri : (y + (m + Z.of_nat i) / 12 <= 9999)%Z)
        by (Z.div_mod_to_equations; lia).
      apply dueDay_text; try lia.
      pose proof (daysInMonth_range (leapDays year) month (leapDays_range _)).
      fold year month. lia.
  - destruct (generateSchedule_returns (fixedZone off) uid 1000 "2024-01-15"
                2024 1 15 3) as (due & k & Ek & E).
    + intros t b. unfold fixedZone, msPerDay in *. lia.
    + reflexivity.
    + lia.
    + assert (k = 2%nat) by (cbn in Ek; lia). subst k.
      destruct (generateSchedule_fixedZone off uid 1000 "2024-01-15" 2024 1 15 3)
        as (l & E' & _ & Due); [ assumption | reflexivity | cbn; lia | lia | ].
      change (inject_Z 3) with 3%Q in *.
      rewrite E in E'. injection E' as <-.
      cbn [seq map app] in *.
      eexists _, _, _. split; [ exact E | ].
      destruct (Due 0%nat _ eq_refl) as (_ & D0).
      destruct (Due 1%nat _ eq_refl) as (_ & D1).
      destruct (Due 2%nat _ eq_refl) as (_ & D2).
      split; [ rewrite D0; reflexivity | ].
      split; [ rewrite D1; reflexivity | ].
      split; [ rewrite D2; reflexivity | ].
      cbn [inst_amount pushed].
      split; [ reflexivity | ]. split; [ reflexivity | ].
      reflexivity.
Qed.

Lemma schedule_due_dates_witness :
  (exists l,
     generateSchedule (fixedZone 0) sampleUid 1000 "2024-01-15" (inject_Z 3) = inr l /\
     Z.of_nat (List.length l) = 3%Z /\
     (forall i j a b, (i < j)%nat ->
        nth_error l i = Some a -> nth_error l j = Some b ->
        exists ta tb,
          parseDate (inst_dueDate a) = Some ta /\
          parseDate (inst_dueDate b) = Some tb /\ (ta < tb)%Z) /\
     (forall i a, nth_error l i = Some a ->
        let year := (2024 + (1 + Z.of_nat i) / 12)%Z in
        let month := ((1 + Z.of_nat i) mod 12)%Z in
        (15 <= 28 \/ 15 <= daysInMonth (leapDays year) month)%Z ->
        inst_dueDate a = isoDate year (month + 1) 15)) /\
  (exists a b c,
     generateSchedule (fixedZone 0) sampleUid 1000 "2024-01-15" 3 = inr [a; b; c] /\
     inst_dueDate a = "2024-02-15"%string /\
     inst_dueDate b = "2024-03-15"%string /\
     inst_dueDate c = "2024-04-15"%string /\
     inst_amount a == 333.33 /\ inst_amount b == 333.33 /\
     inst_amount c == 333.34).
Proof.
  apply (schedule_due_dates 0 sampleUid 1000 "2024-01-15" 2024 1 15 3).
  - unfold msPerDay. lia.
  - reflexivity.
  - lia.
  - vm_compute. discriminate.
Defined.

(** C3, as stated, fails at the end of a month: a loan that starts on
    2024-01-31 (zone UTC) has its first installment due on 2024-03-02, not
    in February, and its second one on 2024-03-31, in the same calendar
    month as the first. *)
Lemma schedule_month_end_counterexample :
  exists a b,
    generateSchedule (fixedZone 0) sampleUid 1000 "2024-01-31" 2 = inr [a; b] /\
    inst_dueDate a = "2024-03-02"%string /\
    inst_dueDate b = "2024-03-31"%string /\
    slice0 7 (inst_dueDate a) <> isoMonth 2024 2 /\
    slice0 7 (inst_dueDate a) = slice0 7 (inst_dueDate b).
Proof.
  eexists _, _. split; [ vm_compute; reflexivity | ].
  cbn [inst_dueDate]. repeat split. vm_compute. discriminate.
Qed.

(** ** The per-bank sums and the grand totals *)

Section BankFacts.
Local Open Scope Q_scope.

Lemma getOwn_setOwn o k v b :
  getOwn (setOwn o k v) b = if String.eqb k b then Some v else getOwn o b.
Proof.
  induction o as [ | [k' v'] o IH ]; cbn [setOwn getOwn].
  - destruct (String.eqb_spec k b); reflexivity.
  - destruct (String.eqb_spec k' k) as [ -> | N ]; cbn [getOwn].
    + destruct (String.eqb_spec k b); reflexivity.
    + destruct (String.eqb_spec k' b) as [ -> | N' ].
      * destruct (String.eqb_spec k b); [ congruence | reflexivity ].
      * exact IH.
Qed.

Lemma setOwn_keys o k v v0 :
  getOwn o k = Some v0 -> map fst (setOwn o k v) = map fst o.
Proof.
  induction o as [ | [k' v'] o IH ]; cbn [setOwn getOwn map fst]; [ discriminate | ].
  destruct (String.eqb_spec k' k) as [ -> | N ]; intros H.
  - reflexivity.
  - cbn [map fst]. rewrite IH by assumption. reflexivity.
Qed.



Lemma bankStep_own o t q :
  getOwn o (tx_bank t) = Some (VNum q) ->
  bankStep o t = setOwn o (tx_bank t) (VNum (q + signedAmount t)).
Proof.
  intros H. unfold bankStep, hasProperty, addAssign. rewrite H. reflexivity.
Qed.

(** A step leaves alone every own property other than the bank of the
    transaction. *)
Lemma bankStep_other o t b :
  tx_bank t <> b -> getOwn (bankStep o t) b = getOwn o b.
Proof.
  intros N. unfold bankStep, hasProperty, addAssign.
  destruct (getOwn o (tx_bank t)) as [ [ q | | ] | ] eqn:E; cbn [negb].
  - rewrite getOwn_setOwn. destruct (String.eqb_spec (tx_bank t) b); [ congruence | reflexivity ].
  - reflexivity.
  - reflexivity.
  - destruct (inherited (tx_bank t)); cbn [negb]; [ | reflexivity ].
    destruct (String.eqb (tx_bank t) "__proto__"); [ reflexivity | ].
    rewrite getOwn_setOwn. destruct (String.eqb_spec (tx_bank t) b); [ congruence | reflexivity ].
Qed.







End BankFacts.


Section BankLookup.
Local Open Scope Q_scope.

Lemma bankSummaries_start b :
  In b BANKS ->
  getOwn (fromEntries (map (fun b => (b, VNum 0)) BANKS)) b = Some (VNum 0).
Proof.
  intros H. unfold BANKS in H. cbn [In] in H.
  repeat (destruct H as [ <- | H ]; [ reflexivity | ]). destruct H.
Qed.

Lemma bankStep_lookup o t b q0 :
  getOwn o b = Some (VNum q0) ->
  getOwn (bankStep o t) b
  = Some (VNum (if String.eqb (tx_bank t) b then q0 + signedAmount t else q0)).
Proof.
  intros H. destruct (String.eqb_spec (tx_bank t) b) as [ E | N ].
  - rewrite <- E in H. rewrite (bankStep_own o t q0 H), getOwn_setOwn, E.
    rewrite String.eqb_refl. reflexivity.
  - rewrite bankStep_other by assumption. exact H.
Qed.

Lemma bankFold_lookup b txs : forall o q0,
  getOwn o b = Some (VNum q0) ->
  exists q, getOwn (fold_left bankStep txs o) b = Some (VNum q) /\
            q == q0 + bankTotal b txs.
Proof.
  induction txs as [ | t txs IH ]; intros o q0 H; cbn [fold_left].
  - exists q0. split; [ assumption | ]. unfold bankTotal. cbn. ring.
  - destruct (IH _ _ (bankStep_lookup o t b q0 H)) as (q & E & S).
    exists q. split; [ exact E | ]. rewrite S. unfold bankTotal. cbn [sumOver].
    destruct (String.eqb (tx_bank t) b); ring.
Qed.

(** Every bank of [BANKS] has a number in [bankSummaries]: the signed sum
    of its transactions. *)
Lemma bankSummaries_lookup txs b :
  In b BANKS ->
  exists q, getOwn (bankSummaries txs) b = Some (VNum q) /\ q == bankTotal b txs.
Proof.
  intros H. destruct (bankFold_lookup b txs _ 0 (bankSummaries_start b H)) as (q & E & S).
  exists q. split; [ exact E | ]. rewrite S. ring.
Qed.

Lemma bankTotal_unreferenced b txs :
  (forall t, In t txs -> tx_bank t <> b) -> bankTotal b txs == 0.
Proof.
  unfold bankTotal. induction txs as [ | t txs IH ]; intros H; cbn [sumOver].
  - reflexivity.
  - destruct (String.eqb_spec (tx_bank t) b) as [ E | N ].
    + exfalso. apply (H t); [ left; reflexivity | exact E ].
    + rewrite IH by (intros t' Ht'; apply H; right; assumption). ring.
Qed.



End BankLookup.


(** ** The time-bucketed views *)

Section BucketFacts.
Local Open Scope Q_scope.


Lemma mapHas_keys m k : mapHas m k = true <-> In k (map fst m).
Proof.
  induction m as [ | [k' b'] m IH ]; cbn [mapHas map fst In].
  - split; [ discriminate | tauto ].
  - destruct (String.eqb_spec k' k) as [ -> | N ].
    + split; [ left; reflexivity | reflexivity ].
    + rewrite IH. split; [ tauto | intros [ E | H ]; [ congruence | assumption ] ].
Qed.


Lemma mapSet_keys_new m k b :
  mapHas m k = false -> map fst (mapSet m k b) = map fst m ++ [k].
Proof.
  induction m as [ | [k0 b0] m IH ]; cbn [mapHas mapSet map fst app]; [ reflexivity | ].
  destruct (String.eqb k0 k); [ discriminate | ].
  intros H. cbn [map fst]. rewrite IH by assumption. reflexivity.
Qed.

Lemma mapAddTo_keys m k ty x : map fst (mapAddTo m k ty x) = map fst m.
Proof.
  induction m as [ | [k0 b0] m IH ]; cbn [mapAddTo map fst]; [ reflexivity | ].
  destruct (String.eqb k0 k); cbn [map fst]; [ reflexivity | ].
  rewrite IH. reflexivity.
Qed.


Variable key : transaction -> string.


Lemma bucketStep_NoDup m t :
  NoDup (map fst m) -> NoDup (map fst (bucketStep key m t)).
Proof.
  intros H. unfold bucketStep. rewrite mapAddTo_keys.
  destruct (mapHas m (key t)) eqn:E; cbn [negb]; [ assumption | ].
  rewrite mapSet_keys_new by assumption.
  apply NoDup_app; [ assumption | repeat constructor; intros [] | ].
  intros k Hk [ <- | [] ]. apply mapHas_keys in Hk. congruence.
Qed.

Lemma buckets_fold_NoDup txs : forall m,
  NoDup (map fst m) -> NoDup (map fst (fold_left (bucketStep key) txs m)).
Proof.
  induction txs as [ | t txs IH ]; intros m H; cbn [fold_left]; [ assumption | ].
  apply IH, bucketStep_NoDup, H.
Qed.





Lemma buckets_NoDup txs : NoDup (map fst (buckets key txs)).
Proof. apply buckets_fold_NoDup. constructor. Qed.


End BucketFacts.

Section SortFacts.

Variable cmp : string * bucket -> string * bucket -> comparison.

Lemma insertSorted_keys x l k :
  In k (map fst (insertSorted cmp x l)) <-> k = fst x \/ In k (map fst l).
Proof.
  induction l as [ | y l IH ]; cbn [insertSorted map In].
  - intuition congruence.
  - destruct (cmp x y); cbn [map In]; try rewrite IH; intuition congruence.
Qed.


Lemma sortBy_keys l k : In k (map fst (sortBy cmp l)) <-> In k (map fst l).
Proof.
  induction l as [ | x l IH ]; cbn [sortBy fold_right map In]; [ tauto | ].
  fold (sortBy cmp l). rewrite insertSorted_keys, IH. intuition congruence.
Qed.


End SortFacts.

Section ViewFacts.
Local Open Scope Q_scope.




Variable LocalTZA : Z -> bool -> Z.
Variable localeCompare : string -> string -> comparison.






End ViewFacts.


(** ** Period keys at or east of UTC *)

Section KeyFacts.
Local Open Scope Z_scope.

Lemma ofInteger_four_digits y : 1000 <= y <= 9999 -> ofInteger y = pad4 y.
Proof.
  intros H. unfold ofInteger.
  destruct (Z.ltb_spec y 0); [ lia | ].
  rewrite Z.abs_eq by lia.
  assert (L : 9 <= Z.log2 y).
  { change 9 with (Z.log2 1000). apply Z.log2_le_mono. lia. }
  destruct (Z.to_nat (Z.log2 y)) as [ | [ | [ | k ] ] ] eqn:E; try lia.
  cbn [digitsFrom].
  destruct (Z.eqb_spec (y / 10) 0) as [ E1 | _ ];
    [ exfalso; revert E1; Z.div_mod_to_equations; lia | ].
  destruct (Z.eqb_spec (y / 10 / 10) 0) as [ E2 | _ ];
    [ exfalso; revert E2; Z.div_mod_to_equations; lia | ].
  destruct (Z.eqb_spec (y / 10 / 10 / 10) 0) as [ E3 | _ ];
    [ exfalso; revert E3; Z.div_mod_to_equations; lia | ].
  destruct (Z.eqb_spec (y / 10 / 10 / 10 / 10) 0) as [ _ | N4 ];
    [ | exfalso; apply N4; Z.div_mod_to_equations; lia ].
  unfold pad4, pad3, pad2.
  rewrite !Z.div_div by lia. reflexivity.
Qed.

Lemma padStart_month m : 1 <= m <= 12 -> padStart 2 "0" (ofInteger m) = pad2 m.
Proof.
  intros H. remember (Z.to_nat m) as k eqn:Ek.
  assert (Em : m = Z.of_nat k) by lia. subst m. clear Ek.
  destruct k as [ | k ]; [ lia | ].
  do 12 (destruct k as [ | k ]; [ reflexivity | ]). lia.
Qed.

Variable LocalTZA : Z -> bool -> Z.

(** The zone is at or east of UTC: local time is ahead by less than a
    day. *)
Hypothesis east : forall t, 0 <= LocalTZA t true < msPerDay.

Lemma local_fields_east start y m d :
  calendarDate start = Some (y, m, d) ->
  getFullYear LocalTZA (parseDate start) = Some y /\
  getMonth LocalTZA (parseDate start) = Some (m - 1).
Proof.
  intros Hc. apply calendarDate_fields in Hc. destruct Hc as (Hs & Hv).
  rewrite (parseDate_ok _ _ _ _ Hs).
  apply isoFields_range in Hs. destruct Hs as (Hy & Hm & Hd).
  unfold getFullYear, getMonth, LocalTime. cbn [option_map].
  set (t := MakeDay y (m - 1) d * msPerDay
            + LocalTZA (MakeDay y (m - 1) d * msPerDay) true).
  assert (Dt : Day t = MakeDay y (m - 1) d) by (apply Day_midnight, east).
  rewrite MakeDay_month in Dt by lia.
  destruct (fields_of_time t y (m - 1) d) as (Fy & Fm & _); [ lia | lia | exact Dt | ].
  rewrite Fy, Fm. split; reflexivity.
Qed.

(** At or east of UTC a date from the year 1000 on is filed under its own
    calendar month and year. *)
Lemma monthKey_east_of_UTC start y m d :
  calendarDate start = Some (y, m, d) -> 1000 <= y ->
  monthKey LocalTZA start = isoMonth y m.
Proof.
  intros Hc Hy. destruct (local_fields_east start y m d Hc) as (Fy & Fm).
  apply calendarDate_fields in Hc. destruct Hc as (Hs & _).
  apply isoFields_range in Hs. destruct Hs as (Hy' & Hm & _).
  unfold monthKey. rewrite Fy, Fm.
  replace (m - 1 + 1) with m by lia.
  rewrite ofInteger_four_digits, padStart_month by lia. reflexivity.
Qed.

Lemma yearKey_east_of_UTC start y m d :
  calendarDate start = Some (y, m, d) -> 1000 <= y ->
  yearKey LocalTZA start = pad4 y.
Proof.
  intros Hc Hy. destruct (local_fields_east start y m d Hc) as (Fy & _).
  apply calendarDate_fields in Hc. destruct Hc as (Hs & _).
  apply isoFields_range in Hs. destruct Hs as (Hy' & _).
  unfold yearKey. rewrite Fy. apply ofInteger_four_digits. lia.
Qed.

End KeyFacts.

(** ** The order of the rows *)

Section OrderFacts.

Context {A : Type}.
Variable cmp : A -> A -> comparison.

(** The comparator never puts two elements each after the other. *)
Hypothesis cmp_total : forall x y, cmp x y = Gt -> cmp y x <> Gt.

Lemma insertSorted_HdRel x y l :
  cmp y x <> Gt -> HdRel (fun a b => cmp a b <> Gt) y l ->
  HdRel (fun a b => cmp a b <> Gt) y (insertSorted cmp x l).
Proof.
  intros Hyx H. destruct l as [ | z l ]; cbn [insertSorted].
  - constructor. assumption.
  - inversion H; subst. destruct (cmp x z); constructor; assumption.
Qed.

Lemma insertSorted_sorted x l :
  Sorted (fun a b => cmp a b <> Gt) l ->
  Sorted (fun a b => cmp a b <> Gt) (insertSorted cmp x l).
Proof.
  induction l as [ | y l IH ]; intros H; cbn [insertSorted].
  - repeat constructor.
  - inversion H as [ | ? ? Hs Hh ]; subst.
    destruct (cmp x y) eqn:E.
    + constructor; [ assumption | constructor; congruence ].
    + constructor; [ assumption | constructor; congruence ].
    + constructor; [ apply IH; assumption | ].
      apply insertSorted_HdRel; [ apply cmp_total; assumption | assumption ].
Qed.

Lemma sortBy_sorted l : Sorted (fun a b => cmp a b <> Gt) (sortBy cmp l).
Proof.
  induction l as [ | x l IH ]; cbn [sortBy fold_right]; [ constructor | ].
  apply insertSorted_sorted. exact IH.
Qed.

End OrderFacts.

Section MonthlyOrder.

Lemma defaultCompare_total x y : defaultCompare x y = Gt -> defaultCompare y x <> Gt.
Proof.
  unfold defaultCompare. intros H. rewrite String.compare_antisym, H. discriminate.
Qed.

Lemma Sorted_map {A B} (R : B -> B -> Prop) (f : A -> B) l :
  Sorted (fun a b => R (f a) (f b)) l -> Sorted R (map f l).
Proof.
  induction 1 as [ | a l Hs IH Hh ]; cbn [map]; constructor; [ assumption | ].
  destruct Hh; cbn [map]; constructor. assumption.
Qed.

(** The rows of the monthly view ascend in the order of [sort()]: by
    the text of their key followed by [",[object Object]"]. *)
Lemma monthlySavings_ascending tz txs :
  Sorted (fun r r' =>
            String.compare (m_month r ++ ",[object Object]")
                           (m_month r' ++ ",[object Object]") <> Gt)
         (monthlySavings tz txs).
Proof.
  unfold monthlySavings. apply Sorted_map. cbn [m_month].
  apply (sortBy_sorted defaultCompare defaultCompare_total).
Qed.

End MonthlyOrder.

(** ** Banks outside [BANKS] *)

Section ForeignKeys.





End ForeignKeys.


(** ** Running sums of one bank *)

Section RunningFacts.
Local Open Scope Q_scope.

Lemma runningRows_last l : forall a,
  match rev (runningRows a l) with
  | [] => l = []
  | r :: _ => r_running r == a + sumOver signedAmount l
  end.
Proof.
  induction l as [ | t l IH ]; intros a; cbn [runningRows rev sumOver].
  - reflexivity.
  - specialize (IH (a + signedAmount t)).
    destruct (rev (runningRows (a + signedAmount t) l)) as [ | r rest ]; cbn [app].
    + subst l. cbn [r_running sumOver]. ring.
    + rewrite IH. ring.
Qed.

Lemma bankTotal_filter b txs :
  sumOver signedAmount (filter (fun t => String.eqb (tx_bank t) b) txs)
  == bankTotal b txs.
Proof.
  unfold bankTotal. induction txs as [ | t txs IH ]; cbn [filter sumOver].
  - reflexivity.
  - destruct (String.eqb (tx_bank t) b); cbn [sumOver]; rewrite IH; ring.
Qed.

(** What [running] does compute: its first row, the one of the
    transaction added first, carries the balance of the bank. *)
Lemma running_first_row_is_balance txs b :
  In b BANKS ->
  exists q,
    getOwn (bankSummaries txs) b = Some (VNum q) /\
    match running (bankTx txs b) with
    | [] => q == 0
    | r :: _ => r_running r == q
    end.
Proof.
  intros Hb. destruct (bankSummaries_lookup txs b Hb) as (q & E & S).
  exists q. split; [ exact E | ].
  unfold running, bankTx. rewrite rev_involutive.
  pose proof (runningRows_last (filter (fun t => String.eqb (tx_bank t) b) txs) 0) as L.
  destruct (rev (runningRows 0 (filter (fun t => String.eqb (tx_bank t) b) txs)))
    as [ | r rest ].
  - rewrite S, <- bankTotal_filter, L. reflexivity.
  - rewrite L, S, bankTotal_filter. ring.
Qed.

(** The last row of [running] belongs to the transaction of the bank
    that was added last, and carries the signed amount of that
    transaction alone. *)
Lemma running_last_row_is_own_amount txs b t rest :
  filter (fun t => String.eqb (tx_bank t) b) txs = t :: rest ->
  exists rows q,
    running (bankTx txs b) = rows ++ [mkRunning t q] /\ q == signedAmount t.
Proof.
  intros H. unfold running, bankTx. rewrite rev_involutive, H.
  cbn [runningRows rev]. eexists _, _. split; [ reflexivity | ]. ring.
Qed.

End RunningFacts.


(** ** Loans *)

Section LoanFacts.

Lemma rounds_nonpositive count : (count <= 0)%Q -> rounds count = O.
Proof.
  intros H. unfold rounds.
  assert (Qceiling count <= 0)%Z.
  { change 0%Z with (Qceiling (inject_Z 0)). apply Qceiling_resp_le. exact H. }
  lia.
Qed.

Lemma isPositive_nonpositive count : (count <= 0)%Q -> isPositive (Num count) = false.
Proof.
  intros H. unfold isPositive. apply Qle_bool_iff in H. rewrite H. reflexivity.
Qed.

Lemma orZero_eq count : (orZero (Num count) == count)%Q.
Proof.
  unfold orZero. destruct (Qeq_bool count 0) eqn:E; [ | reflexivity ].
  apply Qeq_bool_iff in E. rewrite E. reflexivity.
Qed.

Lemma toggleInst_other today instId s :
  inst_id s <> instId -> toggleInst today instId s = s.
Proof.
  intros N. unfold toggleInst. destruct (String.eqb_spec (inst_id s) instId);
    [ contradiction | reflexivity ].
Qed.

Lemma toggleInst_hit today instId s :
  inst_id s = instId ->
  toggleInst today instId s
  = mkInstallment (inst_id s) (inst_dueDate s) (inst_amount s) (negb (inst_paid s))
      (if negb (inst_paid s) then Some today else None).
Proof.
  intros E. unfold toggleInst. rewrite E, String.eqb_refl. reflexivity.
Qed.

(** Toggling twice gives back an installment that was unpaid and had no
    paid date. *)
Lemma toggleInst_twice today today' instId s :
  inst_paid s = false -> inst_paidDate s = None ->
  toggleInst today' instId (toggleInst today instId s) = s.
Proof.
  intros Hp Hd. destruct (String.eqb_spec (inst_id s) instId) as [ E | N ].
  - rewrite (toggleInst_hit today instId s E).
    rewrite toggleInst_hit by exact E. cbn [inst_id inst_dueDate inst_amount inst_paid].
    rewrite Hp. cbn [negb]. destruct s; cbn in *. subst. reflexivity.
  - rewrite (toggleInst_other today instId s N). apply toggleInst_other, N.
Qed.

Lemma Forall2_map_r {A B} (R : A -> B -> Prop) (f : A -> B) l :
  (forall x, In x l -> R x (f x)) -> Forall2 R l (map f l).
Proof.
  induction l as [ | x l IH ]; intros H; cbn [map]; constructor.
  - apply H. left. reflexivity.
  - apply IH. intros y Hy. apply H. right. assumption.
Qed.

Lemma Forall2_same {A} (R : A -> A -> Prop) l :
  (forall x, In x l -> R x x) -> Forall2 R l l.
Proof.
  intros H. rewrite <- (map_id l) at 2. apply Forall2_map_r. exact H.
Qed.

End LoanFacts.


(** ** The aggregations *)



(** C10. Whatever the transactions, every bank of [BANKS] has an entry in
    the per-bank balance object and its value is a number, which is 0 when
    no transaction refers to the bank; for the empty collection the object
    is [BANKS] with 0 everywhere and the bank snapshot of [Reports] has
    one row per bank of [BANKS], in that order. *)
Theorem bank_entries_total :
  forall (txs : list transaction) (b : string),
    In b BANKS ->
    (exists q, getOwn (bankSummaries txs) b = Some (VNum q) /\
               ((forall t, In t txs -> tx_bank t <> b) -> q == 0)) /\
    bankSummaries [] = map (fun b => (b, VNum 0%Q)) BANKS /\
    map fst (bankArray (bankSummaries [])) = BANKS /\
    List.length (bankArray (bankSummaries [])) = List.length BANKS.
Proof.
  intros txs b Hb. split.
  - destruct (bankSummaries_lookup txs b Hb) as (q & E & S).
    exists q. split; [ exact E | ]. intros H. rewrite S.
    apply bankTotal_unreferenced. assumption.
  - repeat split.
Qed.

Lemma bank_entries_total_witness :
  (exists q, getOwn (bankSummaries []) "ABL" = Some (VNum q) /\
             ((forall t, In t [] -> tx_bank t <> "ABL"%string) -> q == 0)) /\
  bankSummaries [] = map (fun b => (b, VNum 0%Q)) BANKS /\
  map fst (bankArray (bankSummaries [])) = BANKS /\
  List.length (bankArray (bankSummaries [])) = List.length BANKS.
Proof.
  apply (bank_entries_total [] "ABL").
  vm_compute. tauto.
Defined.



(** A bank named like a property that every object inherits is a
    special case of [in]: the balances of the banks of [BANKS] stay as
    they are, but the object gains a property of that name, holding a
    text. *)
Lemma inherited_name_adds_a_property :
  bankSummaries [sampleTx "x" "2024-03-05" Expense 12.5 "toString"]
  = bankSummaries [] ++ [("toString"%string, VString)].
Proof. vm_compute. reflexivity. Qed.

(** C5 (the code at the failing input).  With two deposits into UBL, 100
    and then 50, the rows of [running] are in the order of entry and the
    row of the later deposit, the last one, carries 50, its own amount,
    while the balance of UBL is 150; 150 is on the row of the earlier
    deposit. *)
Theorem running_last_row_diverges :
  exists earlier later q,
    running (bankTx twoDeposits "UBL") = [earlier; later] /\
    r_tx earlier = firstDeposit /\ r_tx later = secondDeposit /\
    getOwn (bankSummaries twoDeposits) "UBL" = Some (VNum q) /\
    q == 150 /\ r_running earlier == 150 /\ r_running later == 50 /\
    ~ r_running later == q.
Proof.
  eexists _, _, _. split; [ vm_compute; reflexivity | ].
  split; [ reflexivity | ]. split; [ reflexivity | ].
  split; [ vm_compute; reflexivity | ].
  cbn [r_running]. repeat split. intros H. vm_compute in H. discriminate H.
Qed.

(** C8 (the code at the failing input).  Five hours west of UTC the three
    transactions of the example, dated 2024-01-01, 2024-01-01 and
    2024-02-01, are filed under the months 2023-12 and 2024-01. *)
Theorem monthly_keys_west_of_UTC :
  monthlySavings (fixedZone fiveHoursWest) monthlyExample
  = [ mkMonthly "2023-12" 100 40 60; mkMonthly "2024-01" 50 0 50 ] /\
  monthKey (fixedZone fiveHoursWest) "2024-01-01" = "2023-12"%string /\
  monthKey (fixedZone fiveHoursWest) "2024-02-01" = "2024-01"%string.
Proof. repeat split; vm_compute; reflexivity. Qed.

(** ** The loan actions *)

(** C9. [toggleInstallment] leaves the transactions and the other loan
    collection as they are and maps the loans of its collection one to
    one: a loan keeps every field but its schedule, a loan with another
    id is unchanged, and the schedule is mapped one to one: an
    installment keeps its id, due date and amount, an installment with
    another id is unchanged, and in the loan with the given id the
    installment with the given id goes from unpaid to paid with
    [paidDate] the current date, and from paid to unpaid with [paidDate]
    null.  Toggling a second time gives back every installment that was
    unpaid with a null [paidDate]. *)
Theorem toggle_installment_frame :
  forall (today today' : string) (kind : loanKind) (loanId instId : string)
         (prev : database),
    let next := toggleInstallment today kind loanId instId prev in
    let again := toggleInstallment today' kind loanId instId next in
    transactions next = transactions prev /\
    (forall other, other <> kind -> getLoans other next = getLoans other prev) /\
    Forall2
      (fun l l' =>
         loan_id l' = loan_id l /\ loan_person l' = loan_person l /\
         loan_amount l' = loan_amount l /\ loan_startDate l' = loan_startDate l /\
         loan_dueDate l' = loan_dueDate l /\
         loan_installments l' = loan_installments l /\
         loan_notes l' = loan_notes l /\
         (loan_id l <> loanId -> l' = l) /\
         Forall2
           (fun s s' =>
              inst_id s' = inst_id s /\ inst_dueDate s' = inst_dueDate s /\
              inst_amount s' = inst_amount s /\
              (inst_id s <> instId -> s' = s) /\
              (loan_id l = loanId -> inst_id s = instId -> inst_paid s = false ->
               inst_paid s' = true /\ inst_paidDate s' = Some today) /\
              (loan_id l = loanId -> inst_id s = instId -> inst_paid s = true ->
               inst_paid s' = false /\ inst_paidDate s' = None))
           (loan_schedule l) (loan_schedule l'))
      (getLoans kind prev) (getLoans kind next) /\
    Forall2
      (fun l l'' =>
         Forall2
           (fun s s'' => inst_paid s = false -> inst_paidDate s = None -> s'' = s)
           (loan_schedule l) (loan_schedule l''))
      (getLoans kind prev) (getLoans kind again).
Proof.
  intros today today' kind loanId instId prev next again.
  assert (Lnext : getLoans kind next
                  = map (toggleLoan today loanId instId) (getLoans kind prev))
    by (destruct kind; reflexivity).
  assert (Lagain : getLoans kind again
                   = map (toggleLoan today' loanId instId) (getLoans kind next))
    by (destruct kind; reflexivity).
  split; [ destruct kind; reflexivity | ].
  split; [ intros other N; destruct kind, other; try reflexivity; contradiction | ].
  split.
  - rewrite Lnext. apply Forall2_map_r. intros l _.
    unfold toggleLoan. destruct (String.eqb_spec (loan_id l) loanId) as [ E | N ];
      cbn [negb loan_id loan_person loan_amount loan_startDate loan_dueDate
           loan_installments loan_notes loan_schedule];
      do 7 (split; [ reflexivity | ]).
    + split; [ intros N; contradiction | ].
      apply Forall2_map_r. intros s _.
      destruct (String.eqb_spec (inst_id s) instId) as [ Es | Ns ].
      * rewrite (toggleInst_hit today instId s Es).
        cbn [inst_id inst_dueDate inst_amount inst_paid inst_paidDate].
        do 3 (split; [ reflexivity | ]).
        split; [ intros Ns; contradiction | ].
        split; intros _ _ Hp; rewrite Hp; split; reflexivity.
      * rewrite (toggleInst_other today instId s Ns).
        do 3 (split; [ reflexivity | ]).
        split; [ reflexivity | ].
        split; intros _ Es; contradiction.
    + split; [ reflexivity | ].
      apply Forall2_same. intros s _.
      do 3 (split; [ reflexivity | ]).
      split; [ reflexivity | ].
      split; intros El; contradiction.
  - rewrite Lagain, Lnext, map_map. apply Forall2_map_r. intros l _.
    unfold toggleLoan. destruct (String.eqb_spec (loan_id l) loanId) as [ E | N ];
      cbn [negb loan_id loan_schedule].
    + rewrite E, String.eqb_refl. cbn [negb loan_schedule]. rewrite map_map.
      apply Forall2_map_r. intros s _ Hp Hd. apply toggleInst_twice; assumption.
    + destruct (String.eqb_spec (loan_id l) loanId); [ contradiction | ].
      cbn [negb]. apply Forall2_same. intros s _ _ _. reflexivity.
Qed.

(** C7 (amended).  [generateSchedule] called with a count of 0 or less
    raises a TypeError (it reads the last element of an empty list), but
    [createLoan] never calls it with such a count: when the installments
    field is 0 or less, or not a number, the loan is stored with an empty
    schedule and nothing is raised; its [installments] is then the count
    itself, or 0 when the field is not a number. *)
Theorem invalid_count_policy :
  forall (LocalTZA : Z -> bool -> Z) (uid : nat -> string) (kind : loanKind)
         (prev : database) (person start due notes : string) (amount count : Q),
    (count <= 0)%Q ->
    person <> ""%string ->
    generateSchedule LocalTZA uid amount start count = inl TypeError /\
    forall field, field = Num count \/ field = NaN ->
      exists stored,
        createLoan LocalTZA uid kind
          (mkLoanForm person (Some amount) start due field notes) prev
        = Stored (addLoan (uid 0%nat) kind stored prev) /\
        loan_schedule stored = [] /\
        (loan_installments stored
         == match field with NaN => 0 | Num q => q end)%Q.
Proof.
  intros tz uid kind prev person start due notes amount count Hc Hp.
  split; [ apply generateSchedule_empty, rounds_nonpositive, Hc | ].
  intros field Hf. unfold createLoan.
  cbn [f_amount f_person f_installments f_startDate f_dueDate f_notes].
  destruct (String.eqb_spec person "") as [ E | _ ]; [ contradiction | ].
  destruct Hf as [ -> | -> ].
  - rewrite (isPositive_nonpositive count Hc).
    eexists. split; [ reflexivity | ]. split; [ reflexivity | ].
    cbn [loan_installments]. apply orZero_eq.
  - eexists. split; [ reflexivity | ]. split; reflexivity.
Qed.

Lemma invalid_count_policy_witness :
  generateSchedule (fixedZone 0) sampleUid 1000 "2024-01-15" (-2) = inl TypeError /\
  forall field, field = Num (-2) \/ field = NaN ->
    exists stored,
      createLoan (fixedZone 0) sampleUid kLoansTaken
        (mkLoanForm "Ali" (Some 1000%Q) "2024-01-15" "" field "") emptyDb
      = Stored (addLoan (sampleUid 0%nat) kLoansTaken stored emptyDb) /\
      loan_schedule stored = [] /\
      (loan_installments stored == match field with NaN => 0 | Num q => q end)%Q.
Proof.
  apply (invalid_count_policy (fixedZone 0) sampleUid kLoansTaken emptyDb
           "Ali" "2024-01-15" "" "" 1000 (-2)).
  - vm_compute. discriminate.
  - discriminate.
Defined.

(** C7, as stated, fails: with an installments field that is not a
    number the form is accepted without any error and the loan is stored
    with [installments] 0 and no schedule; with -2 it is stored with no
    schedule as well. *)
Lemma invalid_count_counterexample :
  createLoan (fixedZone 0) sampleUid kLoansTaken (sampleForm NaN) emptyDb
  = Stored (mkDb [] [mkLoan "0" "Ali" 1000 "2024-01-15" None 0 "" []] []) /\
  createLoan (fixedZone 0) sampleUid kLoansTaken (sampleForm (Num (-2))) emptyDb
  = Stored (mkDb [] [mkLoan "0" "Ali" 1000 "2024-01-15" None (-2) "" []] []).
Proof. split; vm_compute; reflexivity. Qed.

(** ** Remarks on the local time zone *)

Section ZoneRemarks.

Lemma buckets_fold_ext (key key' : transaction -> string) txs : forall m,
  (forall t, In t txs -> key t = key' t) ->
  fold_left (bucketStep key) txs m = fold_left (bucketStep key') txs m.
Proof.
  induction txs as [ | t txs IH ]; intros m H; cbn [fold_left]; [ reflexivity | ].
  unfold bucketStep at 2 4. rewrite (H t (or_introl eq_refl)).
  apply IH. intros t' Ht'. apply H. right. assumption.
Qed.

(** The monthly view depends on the zone only through the keys of the
    dates met. *)
Lemma monthlySavings_ext tz tz' txs :
  (forall t, In t txs -> monthKey tz (tx_date t) = monthKey tz' (tx_date t)) ->
  monthlySavings tz txs = monthlySavings tz' txs.
Proof.
  intros H. unfold monthlySavings, buckets.
  rewrite (buckets_fold_ext _ (fun t => monthKey tz' (tx_date t)) txs [] H).
  reflexivity.
Qed.

(** In every zone at or east of UTC the monthly example of the
    specification comes out as the specification lists it. *)
Lemma monthly_example_east_of_UTC (LocalTZA : Z -> bool -> Z) :
  (forall t, (0 <= LocalTZA t true < msPerDay)%Z) ->
  monthlySavings LocalTZA monthlyExample
  = [ mkMonthly "2024-01" 100 40 60; mkMonthly "2024-02" 50 0 50 ].
Proof.
  intros east.
  rewrite (monthlySavings_ext LocalTZA (fixedZone 0)).
  - vm_compute. reflexivity.
  - intros t Ht.
    assert (Z0 : forall u, (0 <= fixedZone 0 u true < msPerDay)%Z)
      by (intros u; unfold fixedZone, msPerDay; lia).
    cbn [monthlyExample In] in Ht.
    destruct Ht as [ <- | [ <- | [ <- | [] ] ] ]; cbn [tx_date sampleTx].
    + rewrite (monthKey_east_of_UTC LocalTZA east _ 2024 1 1),
              (monthKey_east_of_UTC (fixedZone 0) Z0 _ 2024 1 1);
        (reflexivity || lia).
    + rewrite (monthKey_east_of_UTC LocalTZA east _ 2024 1 1),
              (monthKey_east_of_UTC (fixedZone 0) Z0 _ 2024 1 1);
        (reflexivity || lia).
    + rewrite (monthKey_east_of_UTC LocalTZA east _ 2024 2 1),
              (monthKey_east_of_UTC (fixedZone 0) Z0 _ 2024 2 1);
        (reflexivity || lia).
Qed.

(** Where the offset changes with the season, the example schedule of the
    specification loses a day: on central European time the third
    installment falls due on 2024-04-14. *)
Lemma schedule_example_under_daylight_saving :
  exists a b c,
    generateSchedule centralEurope2024 sampleUid 1000 "2024-01-15" 3 = inr [a; b; c] /\
    inst_dueDate a = "2024-02-15"%string /\
    inst_dueDate b = "2024-03-15"%string /\
    inst_dueDate c = "2024-04-14"%string.
Proof.
  eexists _, _, _. split; [ vm_compute; reflexivity | ]. repeat split.
Qed.

(** West of UTC a loan that starts on the first of a month has its due
    dates at the end of the months. *)
Lemma schedule_first_of_month_west_of_UTC :
  exists a b,
    generateSchedule (fixedZone fiveHoursWest) sampleUid 1000 "2024-03-01" 2
    = inr [a; b] /\
    inst_dueDate a = "2024-03-30"%string /\
    inst_dueDate b = "2024-04-30"%string.
Proof.
  eexists _, _. split; [ vm_compute; reflexivity | ]. repeat split.
Qed.

End ZoneRemarks.

(* ================================================================== *)
(** * Further properties of the code *)

(** ** The views *)

Section SumFacts.
Local Open Scope Q_scope.



Lemma sumOver_perm f l l' : Permutation l l' -> sumOver f l == sumOver f l'.
Proof.
  intros P. induction P as [ | x l l' P IH | x y l | l l' l'' P1 IH1 P2 IH2 ];
    cbn [sumOver].
  - reflexivity.
  - rewrite IH. reflexivity.
  - ring.
  - rewrite IH1. exact IH2.
Qed.

Lemma insertSorted_perm {A} (cmp : A -> A -> comparison) x l :
  Permutation (insertSorted cmp x l) (x :: l).
Proof.
  induction l as [ | y l IH ]; cbn [insertSorted]; [ reflexivity | ].
  destruct (cmp x y); try reflexivity.
  rewrite IH. apply perm_swap.
Qed.

Lemma sortBy_perm {A} (cmp : A -> A -> comparison) l : Permutation (sortBy cmp l) l.
Proof.
  induction l as [ | x l IH ]; cbn [sortBy fold_right]; [ reflexivity | ].
  fold (sortBy cmp l). rewrite insertSorted_perm, IH. reflexivity.
Qed.




Variable key : transaction -> string.







(** The keys of the buckets are the keys of the transactions. *)
Lemma bucketStep_keys m t k :
  In k (map fst (bucketStep key m t)) <-> In k (map fst m) \/ key t = k.
Proof.
  unfold bucketStep. rewrite mapAddTo_keys.
  destruct (mapHas m (key t)) eqn:H; cbn [negb].
  - apply mapHas_keys in H. split; [ intros G; left; exact G | ].
    intros [ G | <- ]; assumption.
  - rewrite mapSet_keys_new by exact H. rewrite in_app_iff. cbn [In]. tauto.
Qed.

Lemma buckets_fold_keys txs k : forall m,
  In k (map fst (fold_left (bucketStep key) txs m))
  <-> In k (map fst m) \/ In k (map key txs).
Proof.
  induction txs as [ | t txs IH ]; intros m; cbn [fold_left map In].
  - tauto.
  - rewrite IH, bucketStep_keys. tauto.
Qed.

Lemma sorted_buckets_keys cmp txs :
  let keys := map fst (sortBy cmp (buckets key txs)) in
  NoDup keys /\ (forall k, In k keys <-> In k (map key txs)) /\
  (List.length keys <= List.length txs)%nat.
Proof.
  intros keys.
  assert (P : Permutation keys (map fst (buckets key txs)))
    by (apply Permutation_map, sortBy_perm).
  assert (N : NoDup keys).
  { apply (Permutation_NoDup (Permutation_sym P)). apply buckets_NoDup. }
  assert (K : forall k, In k keys <-> In k (map key txs)).
  { intros k. unfold keys. rewrite sortBy_keys. unfold buckets.
    rewrite buckets_fold_keys. cbn [map In]. tauto. }
  split; [ exact N | ]. split; [ exact K | ].
  rewrite <- (length_map key txs). apply NoDup_incl_length; [ exact N | ].
  intros k Hk. apply K. exact Hk.
Qed.

End SumFacts.


(** X2. The daily view has one row for each date that occurs among the
    transactions, no row twice and none for a date that does not occur;
    likewise the monthly view for the month keys and the yearly view for
    the year keys.  No view has more rows than there are transactions. *)
Theorem rows_are_the_keys_met :
  forall (LocalTZA : Z -> bool -> Z)
         (localeCompare : string -> string -> comparison)
         (txs : list transaction),
    (let keys := map d_date (dailyTotals localeCompare txs) in
     NoDup keys /\ (forall k, In k keys <-> In k (map tx_date txs)) /\
     (List.length keys <= List.length txs)%nat) /\
    (let keys := map m_month (monthlySavings LocalTZA txs) in
     NoDup keys /\
     (forall k, In k keys <-> In k (map (fun t => monthKey LocalTZA (tx_date t)) txs)) /\
     (List.length keys <= List.length txs)%nat) /\
    (let keys := map y_year (yearlySavings LocalTZA txs) in
     NoDup keys /\
     (forall k, In k keys <-> In k (map (fun t => yearKey LocalTZA (tx_date t)) txs)) /\
     (List.length keys <= List.length txs)%nat).
Proof.
  intros tz lc txs. unfold dailyTotals, monthlySavings, yearlySavings.
  rewrite !map_map. cbn [d_date m_month y_year].
  split; [ | split ].
  - apply (sorted_buckets_keys tx_date).
  - apply (sorted_buckets_keys (fun t => monthKey tz (tx_date t))).
  - apply (sorted_buckets_keys (fun t => yearKey tz (tx_date t))).
Qed.

(** ** The order of the reports *)

Section ChronologyFacts.
Local Open Scope Z_scope.

Lemma digit_compare a b :
  0 <= a <= 9 -> 0 <= b <= 9 -> Ascii.compare (digitChar a) (digitChar b) = (a ?= b).
Proof.
  intros Ha Hb. unfold Ascii.compare, digitChar, ascii_of_nat.
  rewrite !N_ascii_embedding by lia.
  rewrite <- N2Z.inj_compare, !nat_N_Z, !Nat2Z.inj_add, !Z2Nat.id by lia.
  change (Z.of_nat 48) with 48. apply Z.add_compare_mono_l.
Qed.

(** Two texts made of six digits, a hyphen after the fourth, and a
    common ending compare as their digits do, the leading ones first. *)
Lemma compare_six_digits (a3 a2 a1 a0 b1 b0 c3 c2 c1 c0 d1 d0 : Z) (ending : string) :
  0 <= a3 <= 9 -> 0 <= a2 <= 9 -> 0 <= a1 <= 9 -> 0 <= a0 <= 9 ->
  0 <= b1 <= 9 -> 0 <= b0 <= 9 ->
  0 <= c3 <= 9 -> 0 <= c2 <= 9 -> 0 <= c1 <= 9 -> 0 <= c0 <= 9 ->
  0 <= d1 <= 9 -> 0 <= d0 <= 9 ->
  String.compare ending ending = Eq ->
  String.compare
    (String (digitChar a3) (String (digitChar a2) (String (digitChar a1)
       (String (digitChar a0) (String "-" (String (digitChar b1)
          (String (digitChar b0) ending)))))))
    (String (digitChar c3) (String (digitChar c2) (String (digitChar c1)
       (String (digitChar c0) (String "-" (String (digitChar d1)
          (String (digitChar d0) ending)))))))
  = (100 * (1000 * a3 + 100 * a2 + 10 * a1 + a0) + (10 * b1 + b0)
     ?= 100 * (1000 * c3 + 100 * c2 + 10 * c1 + c0) + (10 * d1 + d0)).
Proof.
  intros A3 A2 A1 A0 B1 B0 C3 C2 C1 C0 D1 D0 E.
  cbn [String.compare].
  rewrite !digit_compare by assumption.
  change (Ascii.compare "-" "-") with Eq. cbv iota. rewrite E.
  symmetry.
  destruct (Z.compare_spec a3 c3);
    [ | apply Z.compare_lt_iff; lia | apply Z.compare_gt_iff; lia ].
  destruct (Z.compare_spec a2 c2);
    [ | apply Z.compare_lt_iff; lia | apply Z.compare_gt_iff; lia ].
  destruct (Z.compare_spec a1 c1);
    [ | apply Z.compare_lt_iff; lia | apply Z.compare_gt_iff; lia ].
  destruct (Z.compare_spec a0 c0);
    [ | apply Z.compare_lt_iff; lia | apply Z.compare_gt_iff; lia ].
  destruct (Z.compare_spec b1 d1);
    [ | apply Z.compare_lt_iff; lia | apply Z.compare_gt_iff; lia ].
  destruct (Z.compare_spec b0 d0);
    [ apply Z.compare_eq_iff; lia | apply Z.compare_lt_iff; lia
    | apply Z.compare_gt_iff; lia ].
Qed.

Lemma four_digits y :
  0 <= y <= 9999 ->
  0 <= y / 1000 mod 10 <= 9 /\ 0 <= y / 100 mod 10 <= 9 /\
  0 <= y / 10 mod 10 <= 9 /\ 0 <= y mod 10 <= 9 /\
  y = 1000 * (y / 1000 mod 10) + 100 * (y / 100 mod 10) + 10 * (y / 10 mod 10) + y mod 10.
Proof. intros H. Z.div_mod_to_equations. lia. Qed.

Lemma two_digits m :
  0 <= m <= 99 ->
  0 <= m / 10 mod 10 <= 9 /\ 0 <= m mod 10 <= 9 /\ m = 10 * (m / 10 mod 10) + m mod 10.
Proof. intros H. Z.div_mod_to_equations. lia. Qed.

(** The default order of [sort()] on the entries of two months is the
    order of the months. *)
Lemma compare_isoMonth y m y' m' :
  0 <= y <= 9999 -> 1 <= m <= 12 -> 0 <= y' <= 9999 -> 1 <= m' <= 12 ->
  String.compare (isoMonth y m ++ ",[object Object]")
                 (isoMonth y' m' ++ ",[object Object]")
  = (monthNumber (y, m) ?= monthNumber (y', m')).
Proof.
  intros Hy Hm Hy' Hm'.
  destruct (four_digits y Hy) as (A3 & A2 & A1 & A0 & Ey).
  destruct (four_digits y' Hy') as (C3 & C2 & C1 & C0 & Ey').
  destruct (two_digits m) as (B1 & B0 & Em); [ lia | ].
  destruct (two_digits m') as (D1 & D0 & Em'); [ lia | ].
  unfold isoMonth, pad4, pad3, pad2. cbn [String.append].
  rewrite compare_six_digits by (assumption || reflexivity).
  rewrite <- Ey, <- Ey', <- Em, <- Em'.
  unfold monthNumber. cbn [fst snd].
  destruct (Z.compare_spec (12 * y + m) (12 * y' + m'));
    [ apply Z.compare_eq_iff | apply Z.compare_lt_iff | apply Z.compare_gt_iff ]; lia.
Qed.

End ChronologyFacts.

Section SortedKeys.
Local Open Scope Z_scope.

Lemma compare_pad4 y y' :
  0 <= y <= 9999 -> 0 <= y' <= 9999 ->
  String.compare (pad4 y ++ ",[object Object]") (pad4 y' ++ ",[object Object]")
  = (y ?= y').
Proof.
  intros Hy Hy'.
  destruct (four_digits y Hy) as (A3 & A2 & A1 & A0 & Ey).
  destruct (four_digits y' Hy') as (C3 & C2 & C1 & C0 & Ey').
  unfold pad4, pad3, pad2. cbn [String.append String.compare].
  rewrite !digit_compare by assumption.
  change (String.compare ",[object Object]" ",[object Object]") with Eq.
  set (a3 := y / 1000 mod 10) in *. set (a2 := y / 100 mod 10) in *.
  set (a1 := y / 10 mod 10) in *. set (a0 := y mod 10) in *.
  set (c3 := y' / 1000 mod 10) in *. set (c2 := y' / 100 mod 10) in *.
  set (c1 := y' / 10 mod 10) in *. set (c0 := y' mod 10) in *.
  clearbody a3 a2 a1 a0 c3 c2 c1 c0. symmetry.
  destruct (Z.compare_spec a3 c3);
    [ | apply Z.compare_lt_iff; lia | apply Z.compare_gt_iff; lia ].
  destruct (Z.compare_spec a2 c2);
    [ | apply Z.compare_lt_iff; lia | apply Z.compare_gt_iff; lia ].
  destruct (Z.compare_spec a1 c1);
    [ | apply Z.compare_lt_iff; lia | apply Z.compare_gt_iff; lia ].
  destruct (Z.compare_spec a0 c0);
    [ apply Z.compare_eq_iff; lia | apply Z.compare_lt_iff; lia
    | apply Z.compare_gt_iff; lia ].
Qed.

(** Keys written by [enc] from values that [num] orders as the default
    comparator orders their entries. *)
Context {K : Type}.
Variable enc : K -> string.
Variable num : K -> Z.
Variable ok : K -> Prop.

Hypothesis compare_enc : forall a b, ok a -> ok b ->
  String.compare (enc a ++ ",[object Object]") (enc b ++ ",[object Object]")
  = (num a ?= num b).

Hypothesis num_enc : forall a b, ok a -> ok b -> num a = num b -> enc a = enc b.

Lemma sorted_entries_ascend (l : list (string * bucket)) :
  Forall (fun e => exists a, ok a /\ fst e = enc a) l ->
  NoDup (map fst l) ->
  Sorted (fun a b => defaultCompare a b <> Gt) l ->
  exists ks,
    map fst l = map enc ks /\ Forall ok ks /\
    StronglySorted (fun a b => num a < num b) ks.
Proof.
  intros F N S.
  assert (G : exists ks, map fst l = map enc ks /\ Forall ok ks /\
                         Sorted (fun a b => num a < num b) ks).
  { induction l as [ | e l IH ].
    - exists []. split; [ reflexivity | ]. split; constructor.
    - apply Forall_cons_iff in F. destruct F as ((a & Ha & Ea) & F).
      cbn [map] in N. apply NoDup_cons_iff in N. destruct N as (Ne & N).
      apply Sorted_inv in S. destruct S as (S & Hd).
      destruct (IH F N S) as (ks & Ek & Fk & Sk).
      exists (a :: ks). cbn [map]. rewrite Ea, Ek.
      split; [ reflexivity | ]. split; [ constructor; assumption | ].
      constructor; [ exact Sk | ].
      destruct l as [ | e' l ].
      + destruct ks; [ constructor | discriminate Ek ].
      + destruct ks as [ | b ks ]; [ discriminate Ek | ].
        cbn [map] in Ek. injection Ek as Eb Ek.
        apply Forall_cons_iff in Fk. destruct Fk as (Hb & _).
        constructor. apply HdRel_inv in Hd.
        unfold defaultCompare, entryText in Hd. rewrite Ea, Eb in Hd.
        rewrite (compare_enc a b Ha Hb) in Hd.
        destruct (Z.compare_spec (num a) (num b)) as [ E | L | G ].
        * exfalso. apply Ne. cbn [map]. left.
          rewrite Ea, Eb. symmetry. apply num_enc; assumption.
        * exact L.
        * contradiction. }
  destruct G as (ks & Ek & Fk & Sk). exists ks.
  split; [ exact Ek | ]. split; [ exact Fk | ].
  apply Sorted_StronglySorted; [ | exact Sk ].
  intros a b c. lia.
Qed.

End SortedKeys.

(** X3. At or east of UTC, when every transaction is dated by a calendar
    date YYYY-MM-DD of the year 1000 or later, the rows of
    [monthlySavings] are months of the calendar in strictly increasing
    order and the rows of [yearlySavings] are years in strictly increasing
    order: the default [sort()], which compares the entries as texts,
    orders these keys by time. *)
Theorem reports_are_chronological :
  forall (LocalTZA : Z -> bool -> Z) (txs : list transaction),
    (forall t, (0 <= LocalTZA t true < msPerDay)%Z) ->
    (forall t, In t txs ->
       exists y m d, calendarDate (tx_date t) = Some (y, m, d) /\ (1000 <= y)%Z) ->
    (exists yms : list (Z * Z),
       map m_month (monthlySavings LocalTZA txs)
       = map (fun ym => isoMonth (fst ym) (snd ym)) yms /\
       Forall (fun ym => (1000 <= fst ym <= 9999)%Z /\ (1 <= snd ym <= 12)%Z) yms /\
       StronglySorted (fun a b => (monthNumber a < monthNumber b)%Z) yms) /\
    (exists ys : list Z,
       map y_year (yearlySavings LocalTZA txs) = map pad4 ys /\
       Forall (fun y => (1000 <= y <= 9999)%Z) ys /\
       StronglySorted Z.lt ys).
Proof.
  intros tz txs east dates. split.
  - unfold monthlySavings. rewrite map_map. cbn [m_month].
    destruct (sorted_buckets_keys (fun t => monthKey tz (tx_date t)) defaultCompare txs)
      as (N & K & _).
    apply (sorted_entries_ascend (fun ym => isoMonth (fst ym) (snd ym)) monthNumber
             (fun ym => (1000 <= fst ym <= 9999)%Z /\ (1 <= snd ym <= 12)%Z)).
    + intros [y m] [y' m'] (Hy & Hm) (Hy' & Hm'). cbn [fst snd] in *.
      apply compare_isoMonth; lia.
    + intros [y m] [y' m'] (Hy & Hm) (Hy' & Hm'). unfold monthNumber.
      cbn [fst snd] in *. intros E.
      assert (y = y' /\ m = m') as (-> & ->) by lia. reflexivity.
    + apply Forall_forall. intros e He.
      assert (Hk : In (fst e) (map (fun t => monthKey tz (tx_date t)) txs))
        by (apply K, in_map, He).
      apply in_map_iff in Hk. destruct Hk as (t & Et & Ht).
      destruct (dates t Ht) as (y & m & d & Hc & Hy).
      rewrite (monthKey_east_of_UTC tz east _ y m d Hc Hy) in Et.
      apply calendarDate_fields in Hc. destruct Hc as (Hs & _).
      apply isoFields_range in Hs.
      exists (y, m). cbn [fst snd]. split; [ lia | ]. symmetry. exact Et.
    + exact N.
    + apply sortBy_sorted. apply defaultCompare_total.
  - unfold yearlySavings. rewrite map_map. cbn [y_year].
    destruct (sorted_buckets_keys (fun t => yearKey tz (tx_date t)) defaultCompare txs)
      as (N & K & _).
    apply (sorted_entries_ascend pad4 (fun y => y) (fun y => (1000 <= y <= 9999)%Z)).
    + intros y y' Hy Hy'. apply compare_pad4; lia.
    + intros y y' _ _ ->. reflexivity.
    + apply Forall_forall. intros e He.
      assert (Hk : In (fst e) (map (fun t => yearKey tz (tx_date t)) txs))
        by (apply K, in_map, He).
      apply in_map_iff in Hk. destruct Hk as (t & Et & Ht).
      destruct (dates t Ht) as (y & m & d & Hc & Hy).
      rewrite (yearKey_east_of_UTC tz east _ y m d Hc Hy) in Et.
      apply calendarDate_fields in Hc. destruct Hc as (Hs & _).
      apply isoFields_range in Hs.
      exists y. split; [ lia | ]. symmetry. exact Et.
    + exact N.
    + apply sortBy_sorted. apply defaultCompare_total.
Qed.

Lemma reports_are_chronological_witness :
  (exists yms : list (Z * Z),
     map m_month (monthlySavings (fixedZone 0) monthlyExample)
     = map (fun ym => isoMonth (fst ym) (snd ym)) yms /\
     Forall (fun ym => (1000 <= fst ym <= 9999)%Z /\ (1 <= snd ym <= 12)%Z) yms /\
     StronglySorted (fun a b => (monthNumber a < monthNumber b)%Z) yms) /\
  (exists ys : list Z,
     map y_year (yearlySavings (fixedZone 0) monthlyExample) = map pad4 ys /\
     Forall (fun y => (1000 <= y <= 9999)%Z) ys /\
     StronglySorted Z.lt ys).
Proof.
  apply (reports_are_chronological (fixedZone 0) monthlyExample).
  - intros t. unfold fixedZone, msPerDay. lia.
  - intros t Ht. cbn [monthlyExample In] in Ht.
    destruct Ht as [ <- | [ <- | [ <- | [] ] ] ].
    + exists 2024%Z, 1%Z, 1%Z. split; [ reflexivity | lia ].
    + exists 2024%Z, 1%Z, 1%Z. split; [ reflexivity | lia ].
    + exists 2024%Z, 2%Z, 1%Z. split; [ reflexivity | lia ].
Defined.

(** X4. Whatever collation [localeCompare] follows, as long as it never
    puts two texts each after the other, the rows of [dailyTotals] come
    in the order of that collation. *)
Theorem daily_rows_in_collation_order :
  forall (localeCompare : string -> string -> comparison) (txs : list transaction),
    (forall a b, localeCompare a b = Gt -> localeCompare b a <> Gt) ->
    Sorted (fun r r' => localeCompare (d_date r) (d_date r') <> Gt)
           (dailyTotals localeCompare txs).
Proof.
  intros lc txs total. unfold dailyTotals.
  apply Sorted_map. cbn [d_date].
  apply (sortBy_sorted (fun a b : string * bucket => lc (fst a) (fst b))).
  intros x y. apply total.
Qed.

Lemma daily_rows_in_collation_order_witness :
  Sorted (fun r r' => String.compare (d_date r) (d_date r') <> Gt)
         (dailyTotals String.compare monthlyExample).
Proof.
  apply (daily_rows_in_collation_order String.compare monthlyExample).
  intros a b H. rewrite String.compare_antisym, H. discriminate.
Defined.



(** ** The bank table and the running figures *)

Section BankRows.

Lemma getOwn_absent o k : getOwn o k = None <-> ~ In k (map fst o).
Proof.
  induction o as [ | [k' v] o IH ]; cbn [getOwn map fst In].
  - split; [ intros _ [] | reflexivity ].
  - destruct (String.eqb_spec k' k) as [ -> | N ].
    + split; [ discriminate | intros H; exfalso; apply H; left; reflexivity ].
    + rewrite IH. tauto.
Qed.

Lemma setOwn_absent o k v : getOwn o k = None -> setOwn o k v = o ++ [(k, v)].
Proof.
  induction o as [ | [k' v'] o IH ]; cbn [getOwn setOwn app]; [ reflexivity | ].
  destruct (String.eqb k' k); [ discriminate | ].
  intros H. rewrite IH by exact H. reflexivity.
Qed.

Lemma bankStep_keys o t :
  map fst (bankStep o t) = map fst o \/
  (map fst (bankStep o t) = map fst o ++ [tx_bank t] /\
   inherited (tx_bank t) = true /\ ~ In (tx_bank t) (map fst o)).
Proof.
  unfold bankStep, hasProperty, addAssign.
  destruct (getOwn o (tx_bank t)) as [ [ q | | ] | ] eqn:G; cbn [negb].
  - left. apply (setOwn_keys _ _ _ _ G).
  - left. reflexivity.
  - left. reflexivity.
  - destruct (inherited (tx_bank t)) eqn:I; cbn [negb]; [ | left; reflexivity ].
    destruct (String.eqb (tx_bank t) "__proto__"); [ left; reflexivity | ].
    right. rewrite (setOwn_absent _ _ _ G), map_app.
    split; [ reflexivity | ]. split; [ reflexivity | ].
    apply getOwn_absent. exact G.
Qed.

Lemma bankFold_keys base txs : forall o extra,
  map fst o = base ++ extra -> NoDup (base ++ extra) ->
  exists extra',
    map fst (fold_left bankStep txs o) = base ++ extra ++ extra' /\
    NoDup (base ++ extra ++ extra') /\
    Forall (fun k => inherited k = true /\ In k (map tx_bank txs)) extra'.
Proof.
  induction txs as [ | t txs IH ]; intros o extra K N; cbn [fold_left].
  - exists []. rewrite app_nil_r. split; [ exact K | ]. split; [ exact N | constructor ].
  - destruct (bankStep_keys o t) as [ E | (E & I & A) ].
    + rewrite <- E in K. destruct (IH _ extra K N) as (extra' & K' & N' & F).
      exists extra'. split; [ exact K' | ]. split; [ exact N' | ].
      revert F. apply Forall_impl. intros k (Ik & Hk).
      split; [ exact Ik | right; exact Hk ].
    + assert (K1 : map fst (bankStep o t) = base ++ (extra ++ [tx_bank t]))
        by (rewrite E, K, app_assoc; reflexivity).
      assert (N1 : NoDup (base ++ (extra ++ [tx_bank t]))).
      { rewrite app_assoc. apply NoDup_app; [ exact N | | ].
        - constructor; [ intros [] | constructor ].
        - intros k Hk [ <- | [] ]. apply A. rewrite K. exact Hk. }
      destruct (IH _ _ K1 N1) as (extra' & K' & N' & F).
      exists (tx_bank t :: extra').
      rewrite <- app_assoc in K', N'. cbn [app] in K', N'.
      split; [ exact K' | ]. split; [ exact N' | ].
      constructor; [ split; [ exact I | left; reflexivity ] | ].
      revert F. apply Forall_impl. intros k (Ik & Hk).
      split; [ exact Ik | right; exact Hk ].
Qed.

End BankRows.

(** X6. Whatever the transactions, the rows of the bank table
    ([Object.entries(bankSummaries)]) start with the banks of [BANKS], in
    that order, and no name occurs twice; a further row can only carry a
    name that plain objects inherit ([toString], [constructor], ...) and
    that some transaction has as its bank. *)
Theorem bank_rows_for_any_input :
  forall txs : list transaction,
    exists extra : list string,
      map fst (bankArray (bankSummaries txs)) = BANKS ++ extra /\
      NoDup (BANKS ++ extra) /\
      Forall (fun k => inherited k = true /\ In k (map tx_bank txs)) extra.
Proof.
  intros txs. unfold bankArray. rewrite map_map. cbn [fst].
  change (map (fun x : string * jsval => fst x) (bankSummaries txs))
    with (map fst (bankSummaries txs)).
  unfold bankSummaries.
  destruct (bankFold_keys BANKS txs
              (fromEntries (map (fun b => (b, VNum 0%Q)) BANKS)) [])
    as (extra & K & N & F).
  - rewrite app_nil_r. reflexivity.
  - rewrite app_nil_r. unfold BANKS.
    repeat (constructor; [ cbn [In]; intros H; 
                           repeat (destruct H as [ H | H ]; [ discriminate H | ]);
                           exact H | ]).
    constructor.
  - exists extra. cbn [app] in K, N. split; [ exact K | ]. split; [ exact N | exact F ].
Qed.

Section RunningRows.
Local Open Scope Q_scope.

Lemma runningRows_snoc l : forall a t,
  exists q,
    runningRows a (l ++ [t]) = (runningRows a l ++ [mkRunning t q])%list /\
    q == a + sumOver signedAmount l + signedAmount t.
Proof.
  induction l as [ | x l IH ]; intros a t; cbn [app runningRows sumOver].
  - eexists. split; [ reflexivity | ]. ring.
  - destruct (IH (a + signedAmount x) t) as (q & E & Q).
    exists q. split; [ rewrite E; reflexivity | ]. rewrite Q. ring.
Qed.

Lemma sumOver_rev f l : sumOver f (rev l) == sumOver f l.
Proof. apply sumOver_perm. apply Permutation_sym, Permutation_rev. Qed.

Lemma running_cons t l :
  exists q,
    running (t :: l) = mkRunning t q :: running l /\
    q == sumOver signedAmount (t :: l).
Proof.
  unfold running. cbn [rev].
  destruct (runningRows_snoc (rev l) 0 t) as (q & E & Q).
  exists q. split.
  - rewrite E, rev_app_distr. reflexivity.
  - rewrite Q, sumOver_rev. cbn [sumOver]. ring.
Qed.

Lemma running_rows l :
  map r_tx (running l) = l /\
  forall i r, nth_error (running l) i = Some r ->
    r_running r == sumOver signedAmount (skipn i l).
Proof.
  induction l as [ | t l (IHm & IHn) ].
  - split; [ reflexivity | ]. intros [ | i ] r H; discriminate.
  - destruct (running_cons t l) as (q & E & Q). rewrite E. split.
    + cbn [map r_tx]. rewrite IHm. reflexivity.
    + intros [ | i ] r H.
      * injection H as <-. exact Q.
      * cbn [nth_error] in H. cbn [skipn]. apply IHn. exact H.
Qed.

End RunningRows.

(** X7. [running] has one row for each transaction of [bankTx], in the
    same order and all of the active bank, and the running figure of a
    row is the sum of the signed amounts of that row and of all rows
    after it. *)
Theorem running_is_a_suffix_sum :
  forall (txs : list transaction) (activeBank : string),
    let shown := bankTx txs activeBank in
    map r_tx (running shown) = shown /\
    (forall i r, nth_error (running shown) i = Some r ->
       r_running r == sumOver signedAmount (skipn i shown)) /\
    (forall r, In r (running shown) -> tx_bank (r_tx r) = activeBank).
Proof.
  intros txs b shown. destruct (running_rows shown) as (M & N).
  split; [ exact M | ]. split; [ exact N | ].
  intros r Hr. apply (in_map r_tx) in Hr. rewrite M in Hr.
  unfold shown, bankTx in Hr. apply in_rev in Hr. apply filter_In in Hr.
  apply String.eqb_eq. apply Hr.
Qed.

(** ** Keys and dates *)

Section PrefixFacts.
Local Open Scope Z_scope.

Lemma digitChar_digitOf c n : digitOf c = Some n -> digitChar n = c.
Proof.
  destruct c as [ [ | ] [ | ] [ | ] [ | ] [ | ] [ | ] [ | ] [ | ] ];
    vm_compute; intros H; try discriminate H;
    injection H as <-; reflexivity.
Qed.

Lemma pad2_num2 a b x : num2 a b = Some x -> pad2 x = String a (String b "").
Proof.
  unfold num2. destruct (digitOf a) as [ p | ] eqn:Ea; [ | discriminate ].
  destruct (digitOf b) as [ q | ] eqn:Eb; [ | discriminate ].
  intros H. assert (Ex : x = 10 * p + q) by congruence. subst x. clear H.
  pose proof (digitOf_range _ _ Ea) as Ra. pose proof (digitOf_range _ _ Eb) as Rb.
  unfold pad2.
  replace ((10 * p + q) / 10 mod 10) with p by (Z.div_mod_to_equations; lia).
  replace ((10 * p + q) mod 10) with q by (Z.div_mod_to_equations; lia).
  rewrite (digitChar_digitOf _ _ Ea), (digitChar_digitOf _ _ Eb). reflexivity.
Qed.

Lemma pad4_num4 a b c d x :
  num4 a b c d = Some x -> pad4 x = String a (String b (String c (String d ""))).
Proof.
  unfold num4. destruct (num2 a b) as [ p | ] eqn:Ea; [ | discriminate ].
  destruct (num2 c d) as [ q | ] eqn:Eb; [ | discriminate ].
  intros H. assert (Ex : x = 100 * p + q) by congruence. subst x. clear H.
  pose proof (num2_range _ _ _ Ea) as Ra. pose proof (num2_range _ _ _ Eb) as Rb.
  apply pad2_num2 in Ea. apply pad2_num2 in Eb.
  unfold pad4, pad3. unfold pad2 in *.
  replace ((100 * p + q) / 1000 mod 10) with (p / 10 mod 10)
    by (Z.div_mod_to_equations; lia).
  replace ((100 * p + q) / 100 mod 10) with (p mod 10)
    by (Z.div_mod_to_equations; lia).
  replace ((100 * p + q) / 10 mod 10) with (q / 10 mod 10)
    by (Z.div_mod_to_equations; lia).
  replace ((100 * p + q) mod 10) with (q mod 10)
    by (Z.div_mod_to_equations; lia).
  injection Ea as -> ->. injection Eb as -> ->. reflexivity.
Qed.

(** A text that [isoFields] accepts is the text [isoDate] writes. *)
Lemma isoFields_text s y m d : isoFields s = Some (y, m, d) -> s = isoDate y m d.
Proof.
  unfold isoFields. intros H.
  do 10 (destruct s as [ | ? s ]; [ discriminate | ]).
  destruct s; [ | discriminate ].
  destruct (Ascii.eqb a3 "-") eqn:H1; [ | discriminate ].
  destruct (Ascii.eqb a6 "-") eqn:H2; [ | discriminate ].
  cbn [andb] in H.
  apply Ascii.eqb_eq in H1, H2. subst a3 a6.
  destruct (num4 a a0 a1 a2) as [ yy | ] eqn:Ey; [ | discriminate ].
  destruct (num2 a4 a5) as [ mm | ] eqn:Em; [ | discriminate ].
  destruct (num2 a7 a8) as [ dd | ] eqn:Ed; [ | discriminate ].
  destruct ((1 <=? mm) && (mm <=? 12) && (1 <=? dd) && (dd <=? 31))%bool;
    [ | discriminate ].
  assert (E : (yy, mm, dd) = (y, m, d)) by congruence.
  injection E as <- <- <-.
  unfold isoDate. rewrite (pad4_num4 _ _ _ _ _ Ey), (pad2_num2 _ _ _ Em),
    (pad2_num2 _ _ _ Ed). reflexivity.
Qed.

Lemma slice_isoDate y m d :
  slice0 7 (isoDate y m d) = isoMonth y m /\ slice0 4 (isoDate y m d) = pad4 y.
Proof. split; reflexivity. Qed.

End PrefixFacts.

(** X8. At or east of UTC, for a calendar date YYYY-MM-DD of the year
    1000 or later, [monthKey] is the first seven characters of the date
    and [yearKey] its first four. *)
Theorem keys_are_prefixes_east_of_UTC :
  forall (LocalTZA : Z -> bool -> Z) (start : string) (y m d : Z),
    (forall t, (0 <= LocalTZA t true < msPerDay)%Z) ->
    calendarDate start = Some (y, m, d) ->
    (1000 <= y)%Z ->
    monthKey LocalTZA start = slice0 7 start /\
    yearKey LocalTZA start = slice0 4 start.
Proof.
  intros tz start y m d east Hc Hy.
  rewrite (monthKey_east_of_UTC tz east start y m d Hc Hy).
  rewrite (yearKey_east_of_UTC tz east start y m d Hc Hy).
  apply calendarDate_fields in Hc. destruct Hc as (Hs & _).
  rewrite (isoFields_text _ _ _ _ Hs).
  destruct (slice_isoDate y m d) as (-> & ->). split; reflexivity.
Qed.

Lemma keys_are_prefixes_east_of_UTC_witness :
  monthKey (fixedZone 19800000) "2024-03-05" = slice0 7 "2024-03-05" /\
  yearKey (fixedZone 19800000) "2024-03-05" = slice0 4 "2024-03-05".
Proof.
  apply (keys_are_prefixes_east_of_UTC (fixedZone 19800000) "2024-03-05" 2024 3 5).
  - intros t. unfold fixedZone, msPerDay. lia.
  - reflexivity.
  - lia.
Defined.

Section WestFacts.
Local Open Scope Z_scope.

Ltac month_step m v :=
  destruct (Z.eq_dec m v) as [ -> | ];
  [ let w := eval vm_compute in (v - 1) in
    change (v - 1) with w; cbn [monthStart daysInMonth]; lia | ].

Lemma monthStart_step leap m :
  1 <= m <= 11 -> monthStart leap m = monthStart leap (m - 1) + daysInMonth leap (m - 1).
Proof.
  intros H.
  month_step m 1. month_step m 2. month_step m 3. month_step m 4.
  month_step m 5. month_step m 6. month_step m 7. month_step m 8.
  month_step m 9. month_step m 10. month_step m 11. lia.
Qed.

Variable LocalTZA : Z -> bool -> Z.

(** The zone is west of UTC: local time is behind, by a day at most. *)
Hypothesis west : forall t, - msPerDay <= LocalTZA t true < 0.

Lemma local_day_west D : Day (LocalTime LocalTZA (D * msPerDay)) = D - 1.
Proof.
  unfold LocalTime. specialize (west (D * msPerDay)).
  set (off := LocalTZA (D * msPerDay) true) in *. clearbody off.
  replace (D * msPerDay + off) with ((D - 1) * msPerDay + (off + msPerDay))
    by (unfold msPerDay; lia).
  apply Day_midnight. lia.
Qed.

Lemma local_fields_west start y m d :
  calendarDate start = Some (y, m, d) ->
  let ym := if d =? 1 then monthBefore (y, m) else (y, m) in
  getFullYear LocalTZA (parseDate start) = Some (fst ym) /\
  getMonth LocalTZA (parseDate start) = Some (snd ym - 1).
Proof.
  intros Hc ym. apply calendarDate_fields in Hc. destruct Hc as (Hs & Hv).
  rewrite (parseDate_ok _ _ _ _ Hs).
  apply isoFields_range in Hs. destruct Hs as (Hy & Hm & Hd).
  unfold getFullYear, getMonth. cbn [option_map].
  set (t := LocalTime LocalTZA (MakeDay y (m - 1) d * msPerDay)).
  assert (Dt : Day t = MakeDay y (m - 1) d - 1) by apply local_day_west.
  rewrite MakeDay_month in Dt by lia.
  pose proof (leapDays_range y) as Ly.
  pose proof (leapDays_range (y - 1)) as Ly'.
  assert (F : YearFromTime t = fst ym /\ MonthFromTime t = snd ym - 1).
  { subst ym. unfold monthBefore. cbn [fst snd].
    destruct (Z.eqb_spec d 1) as [ -> | Hd1 ].
    - destruct (Z.eqb_spec m 1) as [ -> | Hm1 ]; cbn [fst snd].
      + destruct (fields_of_time t (y - 1) 11 31) as (Fy & Fm & _).
        * lia.
        * cbn [daysInMonth]. lia.
        * rewrite Dt. cbn [monthStart]. 
          pose proof (DayFromYear_succ (y - 1)) as S.
          replace (y - 1 + 1) with y in S by lia.
          rewrite DaysInYear_leap in S. change (1 - 1) with 0. cbn [monthStart]. lia.
        * split; [ exact Fy | rewrite Fm; reflexivity ].
      + pose proof (daysInMonth_range (leapDays y) (m - 1 - 1) Ly) as Hl.
        destruct (fields_of_time t y (m - 1 - 1) (daysInMonth (leapDays y) (m - 1 - 1)))
          as (Fy & Fm & _).
        * lia.
        * lia.
        * rewrite Dt. rewrite (monthStart_step (leapDays y) (m - 1)) by lia. lia.
        * split; [ exact Fy | exact Fm ].
    - destruct (fields_of_time t y (m - 1) (d - 1)) as (Fy & Fm & _).
      + lia.
      + lia.
      + rewrite Dt. lia.
      + split; [ exact Fy | exact Fm ]. }
  destruct F as (-> & ->). split; reflexivity.
Qed.

End WestFacts.

(** X9. West of UTC (by a day at most), a calendar date YYYY-MM-DD from
    the year 1001 on is filed under the month and year of the day before:
    under its own month unless it is the first of a month, and then under
    the month before, which differs from the first seven characters of
    the date. *)
Theorem keys_west_of_UTC :
  forall (LocalTZA : Z -> bool -> Z) (start : string) (y m d : Z),
    (forall t, (- msPerDay <= LocalTZA t true < 0)%Z) ->
    calendarDate start = Some (y, m, d) ->
    (1001 <= y)%Z ->
    let ym := if (d =? 1)%Z then monthBefore (y, m) else (y, m) in
    monthKey LocalTZA start = isoMonth (fst ym) (snd ym) /\
    yearKey LocalTZA start = pad4 (fst ym) /\
    (d = 1%Z -> monthKey LocalTZA start <> slice0 7 start).
Proof.
  intros tz start y m d west Hc Hy ym.
  destruct (local_fields_west tz west start y m d Hc) as (Fy & Fm).
  fold ym in Fy, Fm.
  apply calendarDate_fields in Hc. destruct Hc as (Hs & _).
  pose proof (isoFields_text _ _ _ _ Hs) as Ht.
  apply isoFields_range in Hs. destruct Hs as (Hy' & Hm & _).
  assert (R : (1000 <= fst ym <= 9999 /\ 1 <= snd ym <= 12)%Z).
  { subst ym. unfold monthBefore. cbn [fst snd].
    destruct (d =? 1)%Z; [ destruct (Z.eqb_spec m 1) | ]; cbn [fst snd]; lia. }
  assert (K : monthKey tz start = isoMonth (fst ym) (snd ym)).
  { unfold monthKey. rewrite Fy, Fm.
    replace (snd ym - 1 + 1)%Z with (snd ym) by lia.
    rewrite ofInteger_four_digits, padStart_month by lia. reflexivity. }
  split; [ exact K | ]. split.
  - unfold yearKey. rewrite Fy. apply ofInteger_four_digits. lia.
  - intros Hd. rewrite K, Ht. destruct (slice_isoDate y m d) as (-> & _).
    intros E.
    assert (F : isoFields (isoDate (fst ym) (snd ym) 1) = isoFields (isoDate y m 1)).
    { change (isoDate (fst ym) (snd ym) 1) with (isoMonth (fst ym) (snd ym) ++ "-01")%string.
      change (isoDate y m 1) with (isoMonth y m ++ "-01")%string.
      rewrite E. reflexivity. }
    rewrite !isoFields_isoDate in F by lia.
    subst ym. rewrite Hd in F. cbn [Z.eqb] in F. unfold monthBefore in F. cbn [fst snd] in F.
    destruct (Z.eqb_spec m 1); cbn [fst snd] in F; injection F; lia.
Qed.

Lemma keys_west_of_UTC_witness :
  let ym := if (1 =? 1)%Z then monthBefore (2024, 1)%Z else (2024, 1)%Z in
  monthKey (fixedZone fiveHoursWest) "2024-01-01" = isoMonth (fst ym) (snd ym) /\
  yearKey (fixedZone fiveHoursWest) "2024-01-01" = pad4 (fst ym) /\
  (1 = 1 -> monthKey (fixedZone fiveHoursWest) "2024-01-01" <> slice0 7 "2024-01-01").
Proof.
  apply (keys_west_of_UTC (fixedZone fiveHoursWest) "2024-01-01" 2024 1 1).
  - intros t. unfold fixedZone, fiveHoursWest, msPerDay. lia.
  - reflexivity.
  - lia.
Defined.

Section TodayFacts.
Local Open Scope Z_scope.

Lemma year_of_time_in_range t :
  0 <= t < 253402300800000 -> 1970 <= YearFromTime t <= 9999.
Proof.
  intros H. unfold YearFromTime. apply YearFromDay_bounds.
  assert (D : 0 <= Day t < 2932897).
  { unfold Day, msPerDay. split.
    - apply Z.div_pos; lia.
    - apply Z.div_lt_upper_bound; lia. }
  change (DayFromYear 1970) with 0. change (DayFromYear (9999 + 1)) with 2932897.
  exact D.
Qed.

Lemma todayISO_fields now :
  0 <= now < 253402300800000 ->
  todayISO now = isoDate (YearFromTime now) (MonthFromTime now + 1) (DateFromTime now) /\
  isoFields (todayISO now)
  = Some (YearFromTime now, MonthFromTime now + 1, DateFromTime now).
Proof.
  intros H. pose proof (year_of_time_in_range now H) as Hy.
  destruct (time_of_fields now) as (Hm & Hd & _).
  pose proof (daysInMonth_range (leapDays (YearFromTime now)) (MonthFromTime now)
                (leapDays_range _)) as Hl.
  unfold todayISO. rewrite slice_toISOString by lia.
  split; [ reflexivity | ]. apply isoFields_isoDate; lia.
Qed.

End TodayFacts.

(** X10. From 1970 to the end of the year 9999, [todayISO()] is the UTC
    date of the current time written as ten characters YYYY-MM-DD, it
    names a day of the calendar, and parsing it gives back midnight UTC of
    that day. *)
Theorem todayISO_is_a_calendar_date :
  forall now : Z,
    (0 <= now < 253402300800000)%Z ->
    calendarDate (todayISO now)
    = Some (YearFromTime now, (MonthFromTime now + 1)%Z, DateFromTime now) /\
    parseDate (todayISO now) = Some (Day now * msPerDay)%Z /\
    String.length (todayISO now) = 10%nat.
Proof.
  intros now H. destruct (todayISO_fields now H) as (T & F).
  destruct (time_of_fields now) as (Hm & Hd & _).
  split; [ | split ].
  - unfold calendarDate. rewrite F.
    replace (MonthFromTime now + 1 - 1) with (MonthFromTime now) by lia.
    destruct (Z.leb_spec (DateFromTime now)
                (daysInMonth (leapDays (YearFromTime now)) (MonthFromTime now)));
      [ reflexivity | lia ].
  - rewrite (parseDate_ok _ _ _ _ F).
    replace (MonthFromTime now + 1 - 1) with (MonthFromTime now) by lia.
    rewrite MakeDay_of_fields. reflexivity.
  - rewrite T. reflexivity.
Qed.

Lemma todayISO_is_a_calendar_date_witness :
  calendarDate (todayISO 1705312800000)
  = Some (YearFromTime 1705312800000, (MonthFromTime 1705312800000 + 1)%Z,
          DateFromTime 1705312800000) /\
  parseDate (todayISO 1705312800000) = Some (Day 1705312800000 * msPerDay)%Z /\
  String.length (todayISO 1705312800000) = 10%nat.
Proof.
  apply (todayISO_is_a_calendar_date 1705312800000). lia.
Defined.

(** ** Adding and deleting transactions *)

Section ActionFacts.

Lemma filter_all {A} (f : A -> bool) l :
  (forall x, In x l -> f x = true) -> filter f l = l.
Proof.
  induction l as [ | a l IH ]; intros H; cbn [filter]; [ reflexivity | ].
  rewrite (H a (or_introl eq_refl)). f_equal. apply IH.
  intros x Hx. apply H. right. exact Hx.
Qed.

Lemma map_fixed {A} (f : A -> A) l : (forall x, In x l -> f x = x) -> map f l = l.
Proof.
  induction l as [ | a l IH ]; intros H; cbn [map]; [ reflexivity | ].
  rewrite (H a (or_introl eq_refl)). f_equal. apply IH.
  intros x Hx. apply H. right. exact Hx.
Qed.

Lemma filter_twice {A} (f : A -> bool) l : filter f (filter f l) = filter f l.
Proof.
  apply filter_all. intros x Hx. apply filter_In in Hx. apply Hx.
Qed.

Lemma differs_true a b : a <> b -> negb (String.eqb a b) = true.
Proof. intros H. apply negb_true_iff, String.eqb_neq. exact H. Qed.

Lemma differs_iff a b : negb (String.eqb a b) = true <-> a <> b.
Proof. rewrite negb_true_iff. apply String.eqb_neq. Qed.

Lemma setLoans_getLoans kind db : setLoans kind (getLoans kind db) db = db.
Proof. destruct db, kind; reflexivity. Qed.

Lemma getLoans_setLoans kind ls db : getLoans kind (setLoans kind ls db) = ls.
Proof. destruct kind; reflexivity. Qed.

Lemma getLoans_setLoans_other kind other ls db :
  other <> kind -> getLoans other (setLoans kind ls db) = getLoans other db.
Proof. destruct kind, other; intros H; try reflexivity; contradiction. Qed.

Lemma setLoans_twice kind ls ls' db :
  setLoans kind ls (setLoans kind ls' db) = setLoans kind ls db.
Proof. destruct kind; reflexivity. Qed.

Lemma setLoans_swap kind other ls ls' db :
  other <> kind ->
  setLoans kind ls (setLoans other ls' db) = setLoans other ls' (setLoans kind ls db).
Proof. destruct kind, other; intros H; try reflexivity; contradiction. Qed.

Lemma toggleLoan_id today loanId instId l :
  loan_id (toggleLoan today loanId instId l) = loan_id l.
Proof. unfold toggleLoan. destruct (negb _); reflexivity. Qed.

Lemma filter_map_toggle today loanId instId gone ls :
  filter (fun l => negb (String.eqb (loan_id l) gone))
         (map (toggleLoan today loanId instId) ls)
  = map (toggleLoan today loanId instId)
        (filter (fun l => negb (String.eqb (loan_id l) gone)) ls).
Proof.
  induction ls as [ | l ls IH ]; [ reflexivity | ].
  cbn [map filter]. rewrite toggleLoan_id.
  destruct (negb (String.eqb (loan_id l) gone)); cbn [map]; rewrite IH; reflexivity.
Qed.

Lemma map_toggle_absent today loanId instId ls :
  (forall l, In l ls -> loan_id l <> loanId) ->
  map (toggleLoan today loanId instId) ls = ls.
Proof.
  intros H. apply map_fixed. intros l Hl. unfold toggleLoan. rewrite (differs_true _ _ (H l Hl)). reflexivity.
Qed.

Lemma map_toggleInst_absent today instId sch :
  (forall s, In s sch -> inst_id s <> instId) ->
  map (toggleInst today instId) sch = sch.
Proof.
  intros H. apply map_fixed. intros s Hs. apply toggleInst_other. apply H. exact Hs.
Qed.

End ActionFacts.


(** X12. Deleting a transaction that was just added under an identifier no
    other transaction has restores the state as it was. *)
Theorem delete_undoes_add :
  forall (newId : string) (tx : transaction) (db : database),
    (forall t, In t (transactions db) -> tx_id t <> newId) ->
    deleteTransaction newId (addTransaction newId tx db) = db.
Proof.
  intros newId tx db fresh. unfold deleteTransaction, addTransaction.
  cbn [transactions loansTaken loansGiven filter tx_id].
  rewrite String.eqb_refl. cbn [negb].
  rewrite filter_all.
  - destruct db; reflexivity.
  - intros t Ht. apply differs_true. apply fresh. exact Ht.
Qed.

Lemma delete_undoes_add_witness :
  deleteTransaction "n1" (addTransaction "n1" cashExpense (mkDb twoDeposits [] []))
  = mkDb twoDeposits [] [].
Proof.
  apply (delete_undoes_add "n1" cashExpense (mkDb twoDeposits [] [])).
  intros t Ht. cbn [transactions twoDeposits In] in Ht.
  destruct Ht as [ <- | [ <- | [] ] ]; discriminate.
Defined.



(** X14. [deleteTransaction] leaves the loans alone, keeps exactly the
    transactions with another identifier, does nothing more when repeated,
    and changes nothing when no transaction has the identifier. *)
Theorem delete_transaction_frame :
  forall (id : string) (db : database),
    let next := deleteTransaction id db in
    loansTaken next = loansTaken db /\
    loansGiven next = loansGiven db /\
    (forall t, In t (transactions next) <-> In t (transactions db) /\ tx_id t <> id) /\
    deleteTransaction id next = next /\
    ((forall t, In t (transactions db) -> tx_id t <> id) -> next = db).
Proof.
  intros id db next. subst next. unfold deleteTransaction.
  cbn [transactions loansTaken loansGiven].
  split; [ reflexivity | ]. split; [ reflexivity | ]. split; [ | split ].
  - intros t. rewrite filter_In, differs_iff. reflexivity.
  - rewrite filter_twice. reflexivity.
  - intros H. rewrite filter_all.
    + destruct db; reflexivity.
    + intros t Ht. apply differs_true. apply H. exact Ht.
Qed.

(** ** Schedules *)

Section InstallmentFacts.

Local Open Scope Q_scope.


Variable LocalTZA : Z -> bool -> Z.
Variable uid : nat -> string.




End InstallmentFacts.


Section AmountFacts.
Local Open Scope Q_scope.



End AmountFacts.

Section LastAmount.
Local Open Scope Q_scope.


End LastAmount.



(** The bound leaves room for a last installment below zero: ten
    installments for 0.05 are nine of 0.01 and a last one of -0.04. *)
Lemma last_installment_can_be_negative :
  exists l x,
    generateSchedule (fixedZone 0) sampleUid 0.05 "2024-01-15" 10 = inr l /\
    List.length l = 10%nat /\
    Forall (fun s => inst_amount s == 0.01) (firstn 9 l) /\
    nth_error l 9 = Some x /\ inst_amount x == -0.04.
Proof.
  eexists _, _. split; [ vm_compute; reflexivity | ].
  split; [ reflexivity | ]. split; [ | split; reflexivity ].
  cbn [firstn]. repeat constructor.
Qed.

Section FractionalCount.


End FractionalCount.



(** ** Loans *)

Section FormFacts.

Lemma orZero_count n : 1 <= n -> orZero (Num (inject_Z n)) = inject_Z n.
Proof.
  intros H. unfold orZero. destruct (Qeq_bool (inject_Z n) 0) eqn:E; [ | reflexivity ].
  apply Qeq_bool_eq in E. unfold Qeq in E. cbn [inject_Z Qnum Qden] in E. lia.
Qed.

Lemma isPositive_count n : 1 <= n -> isPositive (Num (inject_Z n)) = true.
Proof.
  intros H. unfold isPositive. apply negb_true_iff.
  destruct (Qle_bool (inject_Z n) 0) eqn:E; [ | reflexivity ].
  apply Qle_bool_iff in E. unfold Qle in E. cbn [inject_Z Qnum Qden] in E. lia.
Qed.

Lemma pushed_ids uid due per k :
  map inst_id (map (pushed uid due per) (seq 0 k)) = map uid (seq 0 k).
Proof. rewrite map_map. reflexivity. Qed.

Lemma NoDup_map_injective {A B} (f : A -> B) l :
  (forall x y, f x = f y -> x = y) -> NoDup l -> NoDup (map f l).
Proof.
  intros inj N. induction N as [ | a l Ha N IH ]; cbn [map]; constructor; [ | exact IH ].
  intros Hin. apply in_map_iff in Hin. destruct Hin as (x & E & Hx).
  apply inj in E. subst x. contradiction.
Qed.

End FormFacts.

Section StoredLoan.

Variable LocalTZA : Z -> bool -> Z.
Variable uid : nat -> string.

Lemma createLoan_stored kind prev person start due notes p y m d n :
  (forall t b, (Z.abs (LocalTZA t b) <= msPerDay)%Z) ->
  person <> ""%string ->
  isoFields start = Some (y, m, d) ->
  (1 <= n <= 3000000)%Z ->
  exists dues k last,
    Z.to_nat n = S k /\
    let sch := map (pushed uid dues (perAmount p (inject_Z n))) (seq 0 k)
               ++ [mkInstallment (uid k) (dues k) last false None] in
    generateSchedule LocalTZA uid p start (inject_Z n) = inr sch /\
    createLoan LocalTZA uid kind
      (mkLoanForm person (Some p) start due (Num (inject_Z n)) notes) prev
    = Stored
        (setLoans kind
           (mkLoan (uid (Z.to_nat n)) person p start
              (if String.eqb due "" then None else Some due)
              (inject_Z n) notes sch
            :: getLoans kind prev) prev).
Proof.
  intros Hz Hp Hs Hn.
  destruct (generateSchedule_returns LocalTZA uid p start y m d n Hz Hs Hn)
    as (dues & k & Ek & E).
  exists dues, k, (lastAmount uid dues p (inject_Z n) (S k)).
  split; [ exact Ek | ]. cbv zeta. split; [ exact E | ].
  unfold createLoan. cbn [f_person f_amount f_installments f_startDate f_dueDate f_notes].
  apply String.eqb_neq in Hp. rewrite Hp.
  rewrite (isPositive_count n) by lia. rewrite E.
  rewrite (orZero_count n) by lia.
  rewrite length_app, length_map, length_seq. cbn [List.length].
  replace (k + 1)%nat with (Z.to_nat n) by lia. reflexivity.
Qed.

Lemma schedule_ids dues per last k :
  map inst_id (map (pushed uid dues per) (seq 0 k)
               ++ [mkInstallment (uid k) (dues k) last false None])
  = map uid (seq 0 (S k)).
Proof. rewrite seq_S, !map_app, pushed_ids. reflexivity. Qed.

Lemma schedule_unpaid dues per last k :
  Forall (fun s => inst_paid s = false)
    (map (pushed uid dues per) (seq 0 k)
     ++ [mkInstallment (uid k) (dues k) last false None]).
Proof.
  apply Forall_app. split.
  - apply Forall_forall. intros s Hin. apply in_map_iff in Hin.
    destruct Hin as (i & <- & _). reflexivity.
  - constructor; [ reflexivity | constructor ].
Qed.

Lemma filter_none {A} (f : A -> bool) l :
  Forall (fun x => f x = false) l -> filter f l = [].
Proof.
  induction 1 as [ | x l Hx _ IH ]; cbn [filter]; [ reflexivity | ].
  rewrite Hx. exact IH.
Qed.

End StoredLoan.

(** X17. With a person, an amount, a calendar start date and a count [n]
    from 1 to 3,000,000, [createLoan] puts a new loan in front of the
    collection chosen: it carries the fields of the form, [n] as its
    number of installments and the schedule [generateSchedule] returns;
    the installments bear the first [n] identifiers drawn, all are unpaid,
    and the loan bears the next identifier.  When [uid] never repeats,
    these identifiers are pairwise distinct. *)
Theorem create_loan_stores_schedule :
  forall (LocalTZA : Z -> bool -> Z) (uid : nat -> string) (kind : loanKind)
         (prev : database) (person start due notes : string) (p : Q) (y m d n : Z),
    (forall t b, (Z.abs (LocalTZA t b) <= msPerDay)%Z) ->
    person <> ""%string ->
    calendarDate start = Some (y, m, d) ->
    (1 <= n <= 3000000)%Z ->
    exists sch,
      generateSchedule LocalTZA uid p start (inject_Z n) = inr sch /\
      createLoan LocalTZA uid kind
        (mkLoanForm person (Some p) start due (Num (inject_Z n)) notes) prev
      = Stored
          (setLoans kind
             (mkLoan (uid (Z.to_nat n)) person p start
                (if String.eqb due "" then None else Some due)
                (inject_Z n) notes sch
              :: getLoans kind prev) prev) /\
      map inst_id sch = map uid (seq 0 (Z.to_nat n)) /\
      Forall (fun s => inst_paid s = false) sch /\
      ((forall i j, uid i = uid j -> i = j) ->
       NoDup (uid (Z.to_nat n) :: map inst_id sch)).
Proof.
  intros tz uid kind prev person start due notes p y m d n Hz Hp Hs Hn.
  apply calendarDate_fields in Hs. destruct Hs as (Hs & _).
  destruct (createLoan_stored tz uid kind prev person start due notes p y m d n
              Hz Hp Hs Hn) as (dues & k & last & Ek & G & E).
  cbv zeta in G, E. eexists. split; [ exact G | ]. split; [ exact E | ].
  rewrite schedule_ids, Ek.
  split; [ reflexivity | ]. split; [ apply schedule_unpaid | ].
  intros inj.
  change (uid (S k) :: map uid (seq 0 (S k))) with (map uid (S k :: seq 0 (S k))).
  apply NoDup_map_injective; [ exact inj | ].
  constructor; [ | apply seq_NoDup ].
  rewrite in_seq. lia.
Qed.

Lemma create_loan_stores_schedule_witness :
  exists sch,
    generateSchedule (fixedZone 0) sampleUid 1000 "2024-01-15" (inject_Z 3) = inr sch /\
    createLoan (fixedZone 0) sampleUid kLoansGiven
      (mkLoanForm "Ali" (Some 1000%Q) "2024-01-15" "2024-06-30" (Num (inject_Z 3)) "car")
      emptyDb
    = Stored
        (setLoans kLoansGiven
           (mkLoan (sampleUid (Z.to_nat 3)) "Ali" 1000 "2024-01-15"
              (if String.eqb "2024-06-30" "" then None else Some "2024-06-30"%string)
              (inject_Z 3) "car" sch
            :: getLoans kLoansGiven emptyDb) emptyDb) /\
    map inst_id sch = map sampleUid (seq 0 (Z.to_nat 3)) /\
    Forall (fun s => inst_paid s = false) sch /\
    ((forall i j, sampleUid i = sampleUid j -> i = j) ->
     NoDup (sampleUid (Z.to_nat 3) :: map inst_id sch)).
Proof.
  apply (create_loan_stores_schedule (fixedZone 0) sampleUid kLoansGiven emptyDb
           "Ali" "2024-01-15" "2024-06-30" "car" 1000 2024 1 15 3).
  - intros t b. vm_compute. discriminate.
  - discriminate.
  - reflexivity.
  - lia.
Defined.

(** X18. Whatever the form, [createLoan] either alerts (exactly when the
    person or the amount is empty) and keeps the form, or ends by an exception inside
    [generateSchedule] and keeps the form, or stores: then the
    transactions and the other collection are unchanged, the collection
    chosen has the new loan in front of the loans it had, and the form is
    reset, so that submitting it again alerts. *)
Theorem create_loan_frame :
  forall (LocalTZA : Z -> bool -> Z) (uid uid' : nat -> string) (now : Z)
         (kind kind' : loanKind) (form : loanForm) (prev : database),
    match createLoan LocalTZA uid kind form prev with
    | Stored db =>
        f_person form <> ""%string /\ f_amount form <> None /\
        transactions db = transactions prev /\
        (forall other, other <> kind -> getLoans other db = getLoans other prev) /\
        tl (getLoans kind db) = getLoans kind prev /\
        List.length (getLoans kind db) = S (List.length (getLoans kind prev)) /\
        createLoan LocalTZA uid' kind'
          (loanFormAfter now (Stored db) form) db = Alerted
    | Alerted =>
        (f_person form = ""%string \/ f_amount form = None) /\
        loanFormAfter now Alerted form = form
    | Raised e =>
        f_person form <> ""%string /\ f_amount form <> None /\
        isPositive (f_installments form) = true /\
        loanFormAfter now (Raised e) form = form
    end.
Proof.
  intros tz uid uid' now kind kind' form prev. unfold createLoan.
  destruct (String.eqb (f_person form) "") eqn:P.
  { apply String.eqb_eq in P. split; [ left; exact P | reflexivity ]. }
  apply String.eqb_neq in P.
  destruct (f_amount form) as [ amount | ]; [ | split; [ right | ]; reflexivity ].
  assert (A : Some amount <> None) by discriminate.
  destruct (isPositive (f_installments form)) eqn:I.
  - destruct (f_installments form) as [ | n ]; [ discriminate | ].
    destruct (generateSchedule tz uid amount (f_startDate form) n) as [ e | sch ].
    + split; [ exact P | ]. split; [ exact A | ]. split; reflexivity.
    + split; [ exact P | ]. split; [ exact A | ]. unfold addLoan.
      split; [ destruct kind; reflexivity | ].
      split; [ intros other H; apply getLoans_setLoans_other; exact H | ].
      rewrite getLoans_setLoans. repeat split.
  - split; [ exact P | ]. split; [ exact A | ]. unfold addLoan.
    split; [ destruct kind; reflexivity | ].
    split; [ intros other H; apply getLoans_setLoans_other; exact H | ].
    rewrite getLoans_setLoans. repeat split.
Qed.

Section CountFacts.

Lemma paid_toggle_absent today instId sch :
  (forall s, In s sch -> inst_id s <> instId) ->
  filter inst_paid (map (toggleInst today instId) sch) = filter inst_paid sch.
Proof. intros H. rewrite map_toggleInst_absent by exact H. reflexivity. Qed.

Lemma paid_toggle_once today instId sch : forall s,
  NoDup (map inst_id sch) -> In s sch -> inst_id s = instId ->
  List.length (filter inst_paid (map (toggleInst today instId) sch))
  = if inst_paid s then (List.length (filter inst_paid sch) - 1)%nat
    else S (List.length (filter inst_paid sch)).
Proof.
  induction sch as [ | a sch IH ]; intros s N Hin Hs; [ destruct Hin | ].
  cbn [map] in N. apply NoDup_cons_iff in N. destruct N as (Na & N).
  destruct Hin as [ -> | Hin ].
  - cbn [map]. rewrite (toggleInst_hit _ _ _ Hs).
    assert (R : map (toggleInst today instId) sch = sch).
    { apply map_toggleInst_absent. intros s' Hs' E. apply Na.
      rewrite Hs, <- E. apply in_map. exact Hs'. }
    rewrite R. cbn [filter inst_paid].
    destruct (inst_paid s); cbn [negb List.length]; lia.
  - assert (Ha : inst_id a <> instId).
    { intros E. apply Na. rewrite E, <- Hs. apply in_map. exact Hin. }
    cbn [map]. rewrite (toggleInst_other _ _ _ Ha). cbn [filter].
    specialize (IH s N Hin Hs).
    assert (P : inst_paid s = true -> (1 <= List.length (filter inst_paid sch))%nat).
    { intros Hp. assert (I : In s (filter inst_paid sch)) by (apply filter_In; auto).
      destruct (filter inst_paid sch); [ destruct I | cbn [List.length]; lia ]. }
    destruct (inst_paid a); cbn [List.length]; rewrite IH;
      destruct (inst_paid s); try reflexivity.
    specialize (P eq_refl). lia.
Qed.

End CountFacts.

Lemma tallyUid_injective a b : tallyUid a = tallyUid b -> a = b.
Proof.
  unfold tallyUid. revert b.
  induction a as [ | a IH ]; intros [ | b ] H; cbn [repeatChar] in H;
    try discriminate H; [ reflexivity | ].
  injection H as H. f_equal. apply IH. exact H.
Qed.

(** X19. When [uid] never repeats, toggling installment [i] of a loan that
    [createLoan] has just stored, by the identifiers the table passes,
    marks that installment paid as of today and no other one: the paid
    count of the loan becomes 1. *)
Theorem toggle_after_create :
  forall (LocalTZA : Z -> bool -> Z) (uid : nat -> string) (kind : loanKind)
         (prev : database) (person start due notes today : string) (p : Q)
         (y m d n : Z) (i : nat),
    (forall t b, (Z.abs (LocalTZA t b) <= msPerDay)%Z) ->
    person <> ""%string ->
    calendarDate start = Some (y, m, d) ->
    (1 <= n <= 3000000)%Z ->
    (forall a b, uid a = uid b -> a = b) ->
    (Z.of_nat i < n)%Z ->
    exists db l rest s,
      createLoan LocalTZA uid kind
        (mkLoanForm person (Some p) start due (Num (inject_Z n)) notes) prev
      = Stored db /\
      getLoans kind (toggleInstallment today kind (uid (Z.to_nat n)) (uid i) db)
      = l :: rest /\
      List.length rest = List.length (getLoans kind prev) /\
      Z.of_nat (List.length (loan_schedule l)) = n /\
      paid l = 1%nat /\
      nth_error (loan_schedule l) i = Some s /\
      inst_id s = uid i /\ inst_paid s = true /\ inst_paidDate s = Some today /\
      (forall j s', j <> i -> nth_error (loan_schedule l) j = Some s' ->
                    inst_paid s' = false).
Proof.
  intros tz uid kind prev person start due notes today p y m d n i
         Hz Hp Hc Hn inj Hi.
  apply calendarDate_fields in Hc. destruct Hc as (Hs & _).
  destruct (createLoan_stored tz uid kind prev person start due notes p y m d n
              Hz Hp Hs Hn) as (dues & k & last & Ek & _ & E).
  cbv zeta in E.
  set (sch := map (pushed uid dues (perAmount p (inject_Z n))) (seq 0 k)
              ++ [mkInstallment (uid k) (dues k) last false None]) in *.
  assert (Ids : map inst_id sch = map uid (seq 0 (S k))) by apply schedule_ids.
  assert (Un : Forall (fun s => inst_paid s = false) sch) by apply schedule_unpaid.
  assert (Len : List.length sch = S k).
  { rewrite <- (length_map inst_id), Ids, length_map, length_seq. reflexivity. }
  assert (ND : NoDup (map inst_id sch)).
  { rewrite Ids. apply NoDup_map_injective; [ exact inj | apply seq_NoDup ]. }
  destruct (nth_error sch i) as [ s0 | ] eqn:Es;
    [ | apply nth_error_None in Es; lia ].
  destruct (schedule_nth uid dues _ last k i s0 Es) as (_ & _ & Id0).
  assert (P0 : inst_paid s0 = false).
  { rewrite Forall_forall in Un. apply Un. apply (nth_error_In _ _ Es). }
  eexists _, _, _, (toggleInst today (uid i) s0).
  split; [ exact E | ].
  unfold toggleInstallment. rewrite !getLoans_setLoans. cbn [map].
  unfold toggleLoan at 1. cbn [loan_id]. rewrite String.eqb_refl. cbn [negb].
  split; [ reflexivity | ].
  split; [ apply length_map | ].
  cbn [loan_schedule]. rewrite length_map.
  split; [ lia | ].
  split.
  { unfold paid. cbn [loan_schedule].
    rewrite (paid_toggle_once today (uid i) sch s0 ND (nth_error_In _ _ Es) Id0).
    rewrite P0, (filter_none _ _ Un). reflexivity. }
  split; [ rewrite nth_error_map, Es; reflexivity | ].
  rewrite (toggleInst_hit _ _ _ Id0). cbn [inst_id inst_paid inst_paidDate].
  rewrite P0. cbn [negb].
  split; [ exact Id0 | ]. split; [ reflexivity | ]. split; [ reflexivity | ].
  intros j s' Hj Ej. rewrite nth_error_map in Ej.
  destruct (nth_error sch j) as [ sj | ] eqn:Esj; [ | discriminate ].
  cbn [option_map] in Ej. injection Ej as <-.
  destruct (schedule_nth uid dues _ last k j sj Esj) as (_ & _ & Idj).
  rewrite toggleInst_other.
  - rewrite Forall_forall in Un. apply Un. apply (nth_error_In _ _ Esj).
  - rewrite Idj. intros Eq. apply inj in Eq. contradiction.
Qed.

Lemma toggle_after_create_witness :
  exists db l rest s,
    createLoan (fixedZone 0) tallyUid kLoansTaken
      (mkLoanForm "Ali" (Some 1000%Q) "2024-01-15" "" (Num (inject_Z 3)) "") emptyDb
    = Stored db /\
    getLoans kLoansTaken
      (toggleInstallment "2024-02-15" kLoansTaken (tallyUid (Z.to_nat 3))
         (tallyUid 1) db)
    = l :: rest /\
    List.length rest = List.length (getLoans kLoansTaken emptyDb) /\
    Z.of_nat (List.length (loan_schedule l)) = 3%Z /\
    paid l = 1%nat /\
    nth_error (loan_schedule l) 1 = Some s /\
    inst_id s = tallyUid 1 /\ inst_paid s = true /\
    inst_paidDate s = Some "2024-02-15"%string /\
    (forall j s', j <> 1%nat -> nth_error (loan_schedule l) j = Some s' ->
                  inst_paid s' = false).
Proof.
  apply (toggle_after_create (fixedZone 0) tallyUid kLoansTaken emptyDb
           "Ali" "2024-01-15" "" "" "2024-02-15" 1000 2024 1 15 3 1).
  - intros t b. vm_compute. discriminate.
  - discriminate.
  - reflexivity.
  - lia.
  - apply tallyUid_injective.
  - lia.
Defined.

(** X20. [toggleInstallment] keeps the length of every schedule.  The paid
    count of a loan stays as it is when the loan has another identifier or
    no installment with the given one; when the identifiers within the
    schedule are distinct it goes up by one if the installment was unpaid
    and down by one if it was paid. *)
Theorem toggle_paid_count :
  forall (today : string) (kind : loanKind) (loanId instId : string) (prev : database),
    Forall2
      (fun l l' =>
         List.length (loan_schedule l') = List.length (loan_schedule l) /\
         (loan_id l <> loanId -> paid l' = paid l) /\
         ((forall s, In s (loan_schedule l) -> inst_id s <> instId) ->
          paid l' = paid l) /\
         (forall s, loan_id l = loanId -> NoDup (map inst_id (loan_schedule l)) ->
                    In s (loan_schedule l) -> inst_id s = instId ->
                    paid l'
                    = if inst_paid s then (paid l - 1)%nat else S (paid l)))
      (getLoans kind prev)
      (getLoans kind (toggleInstallment today kind loanId instId prev)).
Proof.
  intros today kind loanId instId prev. unfold toggleInstallment.
  rewrite getLoans_setLoans. apply Forall2_map_r. intros l _.
  unfold toggleLoan, paid.
  destruct (String.eqb (loan_id l) loanId) eqn:E; cbn [negb loan_schedule].
  - apply String.eqb_eq in E. rewrite length_map.
    split; [ reflexivity | ]. split; [ intros H; contradiction | ]. split.
    + intros H. rewrite paid_toggle_absent by exact H. reflexivity.
    + intros s _ N Hin Hs. apply paid_toggle_once; assumption.
  - apply String.eqb_neq in E.
    split; [ reflexivity | ]. split; [ reflexivity | ]. split; [ reflexivity | ].
    intros s H. contradiction.
Qed.

(** X21. Toggling with identifiers that no installment of no loan of the
    collection matches leaves the whole state as it is. *)
Theorem toggle_unknown_is_identity :
  forall (today : string) (kind : loanKind) (loanId instId : string) (db : database),
    (forall l s, In l (getLoans kind db) -> loan_id l = loanId ->
                 In s (loan_schedule l) -> inst_id s <> instId) ->
    toggleInstallment today kind loanId instId db = db.
Proof.
  intros today kind loanId instId db H. unfold toggleInstallment.
  transitivity (setLoans kind (getLoans kind db) db);
    [ f_equal | apply setLoans_getLoans ].
  apply map_fixed. intros l Hl. unfold toggleLoan.
  destruct (String.eqb (loan_id l) loanId) eqn:E; cbn [negb]; [ | reflexivity ].
  apply String.eqb_eq in E. rewrite map_toggleInst_absent.
  - destruct l; reflexivity.
  - intros s Hs. apply (H l s Hl E Hs).
Qed.

Lemma toggle_unknown_is_identity_witness :
  toggleInstallment "2024-02-15" kLoansTaken "L1" "i9" (mkDb [] [sampleLoan] [])
  = mkDb [] [sampleLoan] [].
Proof.
  apply (toggle_unknown_is_identity "2024-02-15" kLoansTaken "L1" "i9"
           (mkDb [] [sampleLoan] [])).
  intros l s Hl _ Hs. cbn [getLoans loansTaken In] in Hl.
  destruct Hl as [ <- | [] ]. cbn [sampleLoan loan_schedule In] in Hs.
  destruct Hs as [ <- | [] ]. discriminate.
Defined.

(** X22. Deleting a loan and toggling an installment can be done in either
    order, and toggling an installment of a loan that has been deleted
    changes nothing. *)
Theorem toggle_commutes_with_delete :
  forall (today : string) (kind kind' : loanKind) (loanId instId gone : string)
         (db : database),
    deleteLoan kind' gone (toggleInstallment today kind loanId instId db)
    = toggleInstallment today kind loanId instId (deleteLoan kind' gone db) /\
    toggleInstallment today kind loanId instId (deleteLoan kind loanId db)
    = deleteLoan kind loanId db.
Proof.
  intros today kind kind' loanId instId gone db. split.
  - unfold deleteLoan, toggleInstallment.
    destruct kind, kind'; cbn [getLoans setLoans loansTaken loansGiven transactions];
      rewrite ?filter_map_toggle; reflexivity.
  - unfold toggleInstallment, deleteLoan.
    rewrite getLoans_setLoans, setLoans_twice. f_equal.
    apply map_toggle_absent. intros l Hl. apply filter_In in Hl.
    apply differs_iff. apply Hl.
Qed.

(** X23. [deleteLoan] leaves the transactions and the other collection
    alone, keeps exactly the loans with another identifier, does nothing
    more when repeated, and changes nothing when no loan has the
    identifier. *)
Theorem delete_loan_frame :
  forall (kind : loanKind) (loanId : string) (db : database),
    let next := deleteLoan kind loanId db in
    transactions next = transactions db /\
    (forall other, other <> kind -> getLoans other next = getLoans other db) /\
    (forall l, In l (getLoans kind next) <-> In l (getLoans kind db) /\ loan_id l <> loanId) /\
    deleteLoan kind loanId next = next /\
    ((forall l, In l (getLoans kind db) -> loan_id l <> loanId) -> next = db).
Proof.
  intros kind loanId db next. subst next. unfold deleteLoan.
  split; [ destruct kind; reflexivity | ].
  split; [ intros other H; apply getLoans_setLoans_other; exact H | ].
  split; [ | split ].
  - intros l. rewrite getLoans_setLoans, filter_In, differs_iff. reflexivity.
  - rewrite getLoans_setLoans, filter_twice, setLoans_twice. reflexivity.
  - intros H. rewrite filter_all.
    + apply setLoans_getLoans.
    + intros l Hl. apply differs_true. apply H. exact Hl.
Qed.

(** X24. Deleting a loan that was just added under an identifier no other
    loan of the collection has restores the state as it was. *)
Theorem delete_loan_undoes_add :
  forall (newId : string) (kind : loanKind) (payload : loan) (db : database),
    (forall l, In l (getLoans kind db) -> loan_id l <> newId) ->
    deleteLoan kind newId (addLoan newId kind payload db) = db.
Proof.
  intros newId kind payload db fresh. unfold deleteLoan, addLoan.
  rewrite getLoans_setLoans, setLoans_twice. cbn [filter loan_id].
  rewrite String.eqb_refl. cbn [negb].
  rewrite filter_all.
  - apply setLoans_getLoans.
  - intros l Hl. apply differs_true. apply fresh. exact Hl.
Qed.

Lemma delete_loan_undoes_add_witness :
  deleteLoan kLoansTaken "L2"
    (addLoan "L2" kLoansTaken sampleLoan (mkDb [] [sampleLoan] []))
  = mkDb [] [sampleLoan] [].
Proof.
  apply (delete_loan_undoes_add "L2" kLoansTaken sampleLoan (mkDb [] [sampleLoan] [])).
  intros l Hl. cbn [getLoans loansTaken In] in Hl.
  destruct Hl as [ <- | [] ]. discriminate.
Defined.
